(** * atualizar_espelho: the resilient sheet mirror

    A shallow embedding of [atualizar_espelho.py]: the error classifier and
    the retry loop, the currency and date coercers, the trailing-blank row
    count, the normalisation of the batched read, the chunked write loop and
    the run-level restart loop, followed by the properties checked on them.

    Conventions.
    - A Python [str] is a Rocq [string]; each character stands for the code
      point of the same number (0..255).
    - A Python [int] is a [Z]; a Python [float] is an IEEE-754 binary64 value,
      [spec_float] with precision 53 and maximal exponent 1024.
    - A function that may raise returns a [result].
    - A remote call, [random.uniform] and [run_once] are oracles indexed by the
      number of earlier invocations; [time.sleep] is recorded in a trace.
    - Delays are exact rationals ([Q]); the rounding of a sum of two floats
      is not modelled. *)

From Stdlib Require Import ZArith List Bool Lia Ascii String QArith Qminmax Qabs Lqa.
From Stdlib Require Import Floats.SpecFloat.
Import ListNotations.

Local Open Scope string_scope.
Local Open Scope Z_scope.

(* ================================================================= *)
(** ** Python values and exceptions *)

Module Py.

(** A [datetime.date]: proleptic Gregorian year, month, day. *)
Record date := mkDate { year : Z; month : Z; day : Z }.

(** Time of day of a naive [datetime.datetime]. *)
Record time := mkTime { hour : Z; minute : Z; second : Z; microsecond : Z }.

(** The values a cell, or an argument of a coercer, can hold. *)
Inductive value :=
| VNone
| VStr (s : string)
| VBool (b : bool)
| VInt (n : Z)
| VFloat (f : spec_float)
| VDate (d : date)
| VDateTime (d : date) (t : time).

(** Exceptions. [APIError] is [gspread.exceptions.APIError] with its rendered
    text [str(e)]; the others are not API errors. *)
Inductive exn :=
| APIError (text : string)
| ValueError
| OverflowError
| OtherError (text : string).

Inductive result (A : Type) :=
| Ret (a : A)
| Raise (e : exn).
Arguments Ret {A} a.
Arguments Raise {A} e.

Definition is_api_error (e : exn) : bool :=
  match e with APIError _ => true | _ => false end.

(** [str(e)] *)
Definition exn_text (e : exn) : string :=
  match e with
  | APIError t => t
  | ValueError => "ValueError"
  | OverflowError => "OverflowError"
  | OtherError t => t
  end.

(** [isinstance(v, (int, float))]; [bool] is a subclass of [int]. *)
Definition is_int_or_float (v : value) : bool :=
  match v with
  | VBool _ | VInt _ | VFloat _ => true
  | _ => false
  end.

(** [v is None or v == ""] *)
Definition is_none_or_empty (v : value) : bool :=
  match v with
  | VNone => true
  | VStr s => String.eqb s ""
  | _ => false
  end.

End Py.
Import Py.

(* ================================================================= *)
(** ** Strings *)

Module Str.

Definition code (c : ascii) : Z := Z.of_N (N_of_ascii c).

(** [c.isspace()] for a code point below 256. *)
Definition is_space (c : ascii) : bool :=
  let n := code c in
  ((9 <=? n) && (n <=? 13)) || ((28 <=? n) && (n <=? 32))
  || (n =? 133) || (n =? 160).

Definition is_digit (c : ascii) : bool :=
  let n := code c in (48 <=? n) && (n <=? 57).

Definition digit_val (c : ascii) : Z := code c - 48.

(** [s.lstrip()] *)
Fixpoint lstrip (s : string) : string :=
  match s with
  | "" => ""
  | String c t => if is_space c then lstrip t else s
  end.

(** [s.rstrip()] *)
Fixpoint rstrip (s : string) : string :=
  match s with
  | "" => ""
  | String c t =>
      match rstrip t with
      | "" => if is_space c then "" else String c ""
      | t' => String c t'
      end
  end.

(** [s.strip()] *)
Definition strip (s : string) : string := rstrip (lstrip s).

(** [c in s] for a one-character [c] *)
Fixpoint has_char (c : ascii) (s : string) : bool :=
  match s with
  | "" => false
  | String d t => Ascii.eqb c d || has_char c t
  end.

(** [s.replace(c, r)] for a one-character [c] *)
Fixpoint replace_char (c : ascii) (r : string) (s : string) : string :=
  match s with
  | "" => ""
  | String d t =>
      if Ascii.eqb c d then r ++ replace_char c r t
      else String d (replace_char c r t)
  end.

Fixpoint filter (p : ascii -> bool) (s : string) : string :=
  match s with
  | "" => ""
  | String c t => if p c then String c (filter p t) else filter p t
  end.

Fixpoint forallb (p : ascii -> bool) (s : string) : bool :=
  match s with
  | "" => true
  | String c t => p c && forallb p t
  end.

(** [sub in s] *)
Fixpoint contains (sub s : string) : bool :=
  String.prefix sub s
  || match s with
     | "" => false
     | String _ t => contains sub t
     end.

(** The value of a run of decimal digits, most significant first. *)
Fixpoint digits_val (acc : Z) (s : string) : Z :=
  match s with
  | "" => acc
  | String c t => digits_val (10 * acc + digit_val c) t
  end.

(** Splits at the first occurrence of [c]: [(before, Some after)], or
    [(s, None)] when [c] does not occur. *)
Fixpoint split_at (c : ascii) (s : string) : string * option string :=
  match s with
  | "" => ("", None)
  | String d t =>
      if Ascii.eqb c d then ("", Some t)
      else let '(a, b) := split_at c t in (String d a, b)
  end.

End Str.

(* ================================================================= *)
(** ** Floats *)

Module Float.

Definition prec : Z := 53.
Definition emax : Z := 1024.

(** The binary64 value nearest to [n] (ties to even); an infinity when
    [n] is out of range. *)
Definition of_Z (n : Z) : spec_float := binary_normalize prec emax n 0 false.

(** [float(n)] for an [int]: raises [OverflowError] when [n] is too large. *)
Definition of_int (n : Z) : result spec_float :=
  match of_Z n with
  | S754_infinity _ => Raise OverflowError
  | f => Ret f
  end.

(** The binary64 value nearest to [(-1)^neg * m / 10^k]: what [float()] gives
    for a decimal numeral with digits [m], of which [k] after the point. *)
Definition of_decimal (neg : bool) (m : Z) (k : nat) : spec_float :=
  match m with
  | Zpos p =>
      SFdiv prec emax (S754_finite neg p 0)
            (S754_finite false (Z.to_pos (10 ^ Z.of_nat k)) 0)
  | _ => S754_zero neg
  end.

(** [float(s)] for a text [s] over the characters [0-9], [.] and [-]: an
    optional minus sign, then digits with at most one point and at least one
    digit. Any other text is a [ValueError]. *)
Definition of_string (s : string) : result spec_float :=
  let '(neg, body) :=
    match s with
    | String "-" t => (true, t)
    | _ => (false, s)
    end in
  let '(ip, fp) :=
    match Str.split_at "." body with
    | (a, Some b) => (a, b)
    | (a, None) => (a, "")
    end in
  if Str.forallb Str.is_digit ip && Str.forallb Str.is_digit fp
     && negb (String.eqb (ip ++ fp) "")
  then Ret (of_decimal neg (Str.digits_val 0 (ip ++ fp)) (String.length fp))
  else Raise ValueError.

(** The rational value of a finite float. *)
Definition to_Q (f : spec_float) : Q :=
  match f with
  | S754_finite s m e =>
      let n := if s then Z.neg m else Z.pos m in
      if 0 <=? e then inject_Z (n * 2 ^ e) else Qmake n (Z.to_pos (2 ^ (- e)))
  | _ => 0%Q
  end.

End Float.

(* ================================================================= *)
(** ** Configuration *)

Definition DEST_HEADER_ROW : Z := 2.
Definition DEST_DATA_START_ROW : Z := 3.
Definition BATCH_ROWS : Z := 3000.
Definition MAX_ROWS_SCAN : Z := 120000.
Definition MAX_RUN_TRIES : Z := 3.

(* ================================================================= *)
(** ** Calendar dates *)

Module Cal.

Definition MINYEAR : Z := 1.
Definition MAXYEAR : Z := 9999.

Definition is_leap (y : Z) : bool :=
  (y mod 4 =? 0) && (negb (y mod 100 =? 0) || (y mod 400 =? 0)).

Definition days_in_month (y m : Z) : Z :=
  if (m =? 2) && is_leap y then 29
  else nth (Z.to_nat m) [-1; 31; 28; 31; 30; 31; 30; 31; 31; 30; 31; 30; 31] 0.

Definition days_before_year (y : Z) : Z :=
  let y := y - 1 in y * 365 + y / 4 - y / 100 + y / 400.

Definition days_before_month (y m : Z) : Z :=
  nth (Z.to_nat m) [-1; 0; 31; 59; 90; 120; 151; 181; 212; 243; 273; 304; 334] 0
  + (if (2 <? m) && is_leap y then 1 else 0).

(** [d.toordinal()] *)
Definition toordinal (d : date) : Z :=
  days_before_year (year d) + days_before_month (year d) (month d) + day d.

(** [(a - b).days] *)
Definition days_between (a b : date) : Z := toordinal a - toordinal b.

(** The check made by the constructor [date(y, m, d)]. *)
Definition valid (d : date) : bool :=
  (MINYEAR <=? year d) && (year d <=? MAXYEAR)
  && (1 <=? month d) && (month d <=? 12)
  && (1 <=? day d) && (day d <=? days_in_month (year d) (month d)).

(** [n] in decimal, left-padded with zeros to [width] digits ([n >= 0]). *)
Fixpoint zero_pad (width : nat) (n : Z) : string :=
  match width with
  | O => ""
  | S w => zero_pad w (n / 10) ++ String (ascii_of_N (Z.to_N (48 + n mod 10))) ""
  end.

(** [str(d)] for a date: [YYYY-MM-DD]. *)
Definition date_str (d : date) : string :=
  zero_pad 4 (year d) ++ "-" ++ zero_pad 2 (month d) ++ "-" ++ zero_pad 2 (day d).

(** [str(dt)] for a naive datetime: [YYYY-MM-DD HH:MM:SS[.ffffff]]. *)
Definition datetime_str (d : date) (t : time) : string :=
  date_str d ++ " " ++ zero_pad 2 (hour t) ++ ":" ++ zero_pad 2 (minute t)
  ++ ":" ++ zero_pad 2 (second t)
  ++ (if microsecond t =? 0 then "" else "." ++ zero_pad 6 (microsecond t)).

End Cal.

(* ================================================================= *)
(** ** [datetime.strptime] for the four formats of the program *)

Module Strptime.

(** The regular expressions the directives compile to; alternatives are
    tried in order, with backtracking. *)
Inductive re :=
| Cls (p : ascii -> bool)
| Cat (a b : re)
| Alt (a b : re).

Definition chr (c : ascii) : re := Cls (Ascii.eqb c).
Definition rng (lo hi : ascii) : re :=
  Cls (fun c => (Str.code lo <=? Str.code c) && (Str.code c <=? Str.code hi)).
Definition digit : re := Cls Str.is_digit.

(** All the ways [r] matches a prefix of [s], as (matched text, rest), in
    the order a backtracking matcher tries them. *)
Fixpoint re_match (r : re) (s : string) : list (string * string) :=
  match r with
  | Cls p =>
      match s with
      | String c t => if p c then [(String c "", t)] else []
      | "" => []
      end
  | Cat a b =>
      flat_map (fun '(m1, r1) =>
                  map (fun '(m2, r2) => (m1 ++ m2, r2)) (re_match b r1))
               (re_match a s)
  | Alt a b => re_match a s ++ re_match b s
  end.

Inductive directive := Dd | Dm | DY | Dy.

Inductive item :=
| Dir (d : directive)
| Lit (c : ascii).

Definition directive_re (d : directive) : re :=
  match d with
  | Dd => (* 3[0-1]|[1-2]\d|0[1-9]|[1-9]| [1-9] *)
      Alt (Cat (chr "3") (rng "0" "1"))
     (Alt (Cat (rng "1" "2") digit)
     (Alt (Cat (chr "0") (rng "1" "9"))
     (Alt (rng "1" "9")
          (Cat (chr " ") (rng "1" "9")))))
  | Dm => (* 1[0-2]|0[1-9]|[1-9] *)
      Alt (Cat (chr "1") (rng "0" "2"))
     (Alt (Cat (chr "0") (rng "1" "9"))
          (rng "1" "9"))
  | DY => (* \d\d\d\d *)
      Cat digit (Cat digit (Cat digit digit))
  | Dy => (* \d\d *)
      Cat digit digit
  end.

(** The captured groups of a match, with what is left of the text. *)
Definition groups := list (directive * string).

Fixpoint fmt_match (fmt : list item) (s : string) : list (groups * string) :=
  match fmt with
  | [] => [([], s)]
  | Lit c :: rest =>
      match s with
      | String d t => if Ascii.eqb c d then fmt_match rest t else []
      | "" => []
      end
  | Dir d :: rest =>
      flat_map (fun '(m, r) =>
                  map (fun '(g, r') => ((d, m) :: g, r')) (fmt_match rest r))
               (re_match (directive_re d) s)
  end.

(** [int(text)] for a captured group: digits, after an optional blank. *)
Definition group_int (text : string) : Z := Str.digits_val 0 (Str.strip text).

Fixpoint assign (g : groups) (d : date) : date :=
  match g with
  | [] => d
  | (Dd, t) :: g' => assign g' (mkDate (year d) (month d) (group_int t))
  | (Dm, t) :: g' => assign g' (mkDate (year d) (group_int t) (day d))
  | (DY, t) :: g' => assign g' (mkDate (group_int t) (month d) (day d))
  | (Dy, t) :: g' =>
      let y := group_int t in
      assign g' (mkDate (if y <=? 68 then y + 2000 else y + 1900) (month d) (day d))
  end.

(** [datetime.strptime(s, fmt).date()]: the first match of the compiled
    format must consume all of [s] and give a valid date, or [ValueError]. *)
Definition strptime_date (s : string) (fmt : list item) : result date :=
  match fmt_match fmt s with
  | (g, "") :: _ =>
      let d := assign g (mkDate 1900 1 1) in
      if Cal.valid d then Ret d else Raise ValueError
  | _ => Raise ValueError
  end.

(** ["%d/%m/%Y", "%Y-%m-%d", "%d-%m-%Y", "%d/%m/%y"] *)
Definition formats : list (list item) :=
  [ [Dir Dd; Lit "/"; Dir Dm; Lit "/"; Dir DY];
    [Dir DY; Lit "-"; Dir Dm; Lit "-"; Dir Dd];
    [Dir Dd; Lit "-"; Dir Dm; Lit "-"; Dir DY];
    [Dir Dd; Lit "/"; Dir Dm; Lit "/"; Dir Dy] ].

End Strptime.

(* ================================================================= *)
(** ** Currency coercion *)

(** The characters kept by [re.sub(r"[^0-9,\.\-]", "", s)]. *)
Definition currency_char (c : ascii) : bool :=
  Str.is_digit c || Ascii.eqb c "," || Ascii.eqb c "." || Ascii.eqb c "-".

(** The characters of the texts that [Float.of_string] is defined for. *)
Definition float_char (c : ascii) : bool :=
  Str.is_digit c || Ascii.eqb c "." || Ascii.eqb c "-".

(** The separators of [clean_currency]: with both a comma and a point the
    points go and the comma becomes the point; with a comma only, the comma
    becomes the point. *)
Definition fix_separators (s : string) : string :=
  if Str.has_char "," s && Str.has_char "." s then
    Str.replace_char "," "." (Str.replace_char "." "" s)
  else if Str.has_char "," s && negb (Str.has_char "." s) then
    Str.replace_char "," "." s
  else s.

(** [clean_currency] from [s = str(value).strip()] on. *)
Definition clean_currency_text (text : string) : value :=
  let s := Str.strip text in
  let s := Str.filter currency_char s in
  let s := fix_separators s in
  match Float.of_string s with
  | Ret f => VFloat f
  | Raise _ => VStr ""
  end.

Definition clean_currency (v : value) : result value :=
  if is_none_or_empty v then Ret (VStr "")
  else
    match v with
    | VBool b => Ret (VFloat (Float.of_Z (if b then 1 else 0)))
    | VInt n =>
        match Float.of_int n with
        | Ret f => Ret (VFloat f)
        | Raise e => Raise e
        end
    | VFloat f => Ret (VFloat f)
    | VStr s => Ret (clean_currency_text s)
    | VDate d => Ret (clean_currency_text (Cal.date_str d))
    | VDateTime d t => Ret (clean_currency_text (Cal.datetime_str d t))
    | VNone => Ret (VStr "")
    end.

(* ================================================================= *)
(** ** Date coercion *)

Definition epoch : date := mkDate 1899 12 30.

(** The loop over the formats: the first one that parses wins. *)
Fixpoint first_parse (s : string) (fmts : list (list Strptime.item)) : option date :=
  match fmts with
  | [] => None
  | fmt :: rest =>
      match Strptime.strptime_date s fmt with
      | Ret d => Some d
      | Raise _ => first_parse s rest
      end
  end.

(** [float((py_date - epoch).days)] *)
Definition serial_of (d : date) : result value :=
  match Float.of_int (Cal.days_between d epoch) with
  | Ret f => Ret (VFloat f)
  | Raise e => Raise e
  end.

Definition to_gs_serial (dt : value) : result value :=
  if is_none_or_empty dt then Ret (VStr "")
  else if is_int_or_float dt then Ret dt
  else
    match dt with
    | VDate d => serial_of d
    | VDateTime d _ => serial_of d
    | VStr text =>
        let s := Str.strip text in
        if String.eqb s "" then Ret (VStr "")
        else
          match first_parse s Strptime.formats with
          | Some d => serial_of d
          | None => Ret (VStr "")
          end
    | _ => Ret (VStr "")
    end.

(* ================================================================= *)
(** ** The error classifier and the retry loop *)

Definition RETRY_CODES : list string := ["429"; "500"; "502"; "503"].

(** [any(code in s for code in ("429", "500", "502", "503"))], [s = str(e)] *)
Definition is_retryable_api_error (e : exn) : bool :=
  let s := exn_text e in
  existsb (fun code => Str.contains code s) RETRY_CODES.

(** What a run of the program has done to the outside: the number of
    invocations of the wrapped call, the number of random draws, and the
    sleeps in the order they were made. *)
Record world := mkWorld { calls : nat; draws : nat; slept : list Q }.

Definition world0 : world := mkWorld 0 0 [].

Definition sleep (d : Q) (w : world) : world :=
  mkWorld (calls w) (draws w) (slept w ++ [d]).

Section Effects.

Context {A : Type}.

(** [call k]: what the [k]-th invocation of the wrapped call does. *)
Variable call : nat -> result A.

(** [rand k]: the [k]-th value of [random.random()]. *)
Variable rand : nat -> Q.

Definition invoke (w : world) : result A * world :=
  (call (calls w), mkWorld (S (calls w)) (draws w) (slept w)).

(** [random.uniform(a, b)] is [a + (b - a) * random.random()]. *)
Definition uniform (a b : Q) (w : world) : Q * world :=
  ((a + (b - a) * rand (draws w))%Q,
   mkWorld (calls w) (S (draws w)) (slept w)).

(** [min(cap, base * (2 ** (attempt - 1)))] *)
Definition backoff (base cap : Q) (attempt : Z) : Q :=
  Qmin cap (base * inject_Z (2 ^ (attempt - 1))).

(** The [while True] loop of [with_retry]; [fuel] bounds the number of
    iterations. *)
Fixpoint with_retry_loop (fuel : nat) (max_tries : Z) (base cap : Q)
         (attempt : Z) (w : world) : option (result A * world) :=
  match fuel with
  | O => None
  | S fuel' =>
      let '(r, w) := invoke w in
      match r with
      | Ret a => Some (Ret a, w)
      | Raise e =>
          if is_api_error e then
            if negb (is_retryable_api_error e) || (max_tries <=? attempt)
            then Some (Raise e, w)
            else
              let '(j, w) := uniform 0 (1 # 2) w in
              let delay := (backoff base cap attempt + j)%Q in
              with_retry_loop fuel' max_tries base cap (attempt + 1)
                              (sleep delay w)
          else
            if Z.min 3 max_tries <=? attempt
            then Some (Raise e, w)
            else
              let '(j, w) := uniform 0 (1 # 2) w in
              let delay := (1 + j)%Q in
              with_retry_loop fuel' max_tries base cap (attempt + 1)
                              (sleep delay w)
      end
  end.

Definition with_retry (fuel : nat) (max_tries : Z) (base cap : Q)
  : option (result A * world) :=
  with_retry_loop fuel max_tries base cap 1 world0.

(** ** The run-level restart loop

    Here [call] is [run_once]: each invocation authenticates and opens its
    own handles. *)
Fixpoint main_loop (attempts : list Z) (w : world) : result unit * world :=
  match attempts with
  | [] => (Ret tt, w)
  | attempt :: rest =>
      let '(r, w) := invoke w in
      match r with
      | Ret _ => (Ret tt, w)
      | Raise e =>
          if is_api_error e then
            if is_retryable_api_error e && (attempt <? MAX_RUN_TRIES) then
              let '(j, w) := uniform 0 (3 # 2) w in
              let delay := (5 * inject_Z attempt + j)%Q in
              main_loop rest (sleep delay w)
            else (Raise e, w)
          else
            if attempt <? MAX_RUN_TRIES then
              let '(j, w) := uniform 0 1 w in
              let delay := (3 + j)%Q in
              main_loop rest (sleep delay w)
            else (Raise e, w)
      end
  end.

End Effects.

(** [range(lo, hi)] *)
Definition py_range (lo hi : Z) : list Z :=
  map (fun i => lo + Z.of_nat i) (seq 0 (Z.to_nat (hi - lo))).

Definition main (run_once : nat -> result unit) (rand : nat -> Q)
  : result unit * world :=
  main_loop run_once rand (py_range 1 (MAX_RUN_TRIES + 1)) world0.

Definition DEFAULT_MAX_TRIES : Z := 9.
Definition DEFAULT_BASE : Q := 4 # 5.
Definition DEFAULT_CAP : Q := 12.

(* ================================================================= *)
(** ** One run: normalisation, row count, coercion, chunked write *)

Inductive tipo := texto | data | valor.

(** (source column, destination column, type) *)
Definition MAPPINGS : list (string * string * tipo) :=
  [ ("AC", "B", texto); ("AA", "C", texto); ("Z", "D", texto);
    ("AK", "E", texto); ("A", "F", texto); ("B", "G", texto);
    ("H", "H", texto); ("AJ", "I", texto); ("I", "J", texto);
    ("Q", "K", data); ("R", "L", data); ("M", "M", data);
    ("AL", "N", data); ("AM", "O", data); ("N", "P", data);
    ("J", "Q", valor); ("K", "R", valor); ("Y", "S", valor);
    ("X", "T", valor); ("AB", "U", valor); ("AF", "V", valor);
    ("AE", "W", valor); ("AN", "X", texto) ].

(** A [dict] with [str] keys, in insertion order. *)
Definition dict (V : Type) := list (string * V).

(** [d[k] = v] *)
Fixpoint dict_set {V} (k : string) (v : V) (d : dict V) : dict V :=
  match d with
  | [] => [(k, v)]
  | (k', v') :: rest =>
      if String.eqb k k' then (k, v) :: rest else (k', v') :: dict_set k v rest
  end.

(** [d[k]] *)
Fixpoint dict_get {V} (k : string) (d : dict V) : option V :=
  match d with
  | [] => None
  | (k', v') :: rest => if String.eqb k k' then Some v' else dict_get k rest
  end.

(** [[row[0] if row else "" for row in col_vals_raw]] *)
Definition flatten_rows (col_vals_raw : list (list value)) : list value :=
  map (fun row => match row with c :: _ => c | [] => VStr "" end) col_vals_raw.

(** The loop that fills [data_cols] from the result [batch] of the batched
    read, [i] being the index given by [enumerate]. *)
Fixpoint normalize_from (i : nat) (maps : list (string * string * tipo))
         (batch : list (list (list value))) (data_cols : dict (list value))
  : dict (list value) :=
  match maps with
  | [] => data_cols
  | (src_col, _, _) :: rest =>
      let col_vals_raw := nth i batch [] in
      let flat := flatten_rows col_vals_raw in
      normalize_from (S i) rest batch (dict_set src_col flat data_cols)
  end.

Definition normalize (batch : list (list (list value))) : dict (list value) :=
  normalize_from 0 MAPPINGS batch [].

(** [v == "" or str(v).strip() == ""]: only a [str] can be blank, the text
    of [None], of a number and of a date always has a visible character. *)
Definition is_blank_cell (v : value) : bool :=
  match v with
  | VStr s => String.eqb s "" || String.eqb (Str.strip s) ""
  | _ => false
  end.

(** [v[-1]], when [v] is not empty *)
Fixpoint last_cell (v : list value) : option value :=
  match v with
  | [] => None
  | [x] => Some x
  | _ :: t => last_cell t
  end.

(** [while v and (v[-1] == "" or str(v[-1]).strip() == ""): v.pop()] *)
Fixpoint pop_loop (fuel : nat) (v : list value) : option (list value) :=
  match fuel with
  | O => None
  | S fuel' =>
      match last_cell v with
      | Some x => if is_blank_cell x then pop_loop fuel' (removelast v) else Some v
      | None => Some v
      end
  end.

(** The loop over [cols_dict.items()]; each column gets as many iterations
    of the inner loop as it has cells, and one more for the exit test. *)
Fixpoint calc_loop (items : list (string * list value)) (max_len : Z) : option Z :=
  match items with
  | [] => Some max_len
  | (_, values) :: rest =>
      match pop_loop (S (List.length values)) values with
      | Some v =>
          let n := Z.of_nat (List.length v) in
          calc_loop rest (if max_len <? n then n else max_len)
      | None => None
      end
  end.

Definition calc_num_rows_from_columns (cols_dict : dict (list value)) : option Z :=
  calc_loop cols_dict 0.

(** The row count as the specification words it: the trailing run of blank
    entries is stripped from each column, and the longest remainder wins. *)
Fixpoint strip_trailing_blanks (v : list value) : list value :=
  match v with
  | [] => []
  | x :: t =>
      match strip_trailing_blanks t with
      | [] => if is_blank_cell x then [] else [x]
      | t' => x :: t'
      end
  end.

Definition infer_row_count (columns : dict (list value)) : Z :=
  fold_right Z.max 0
    (map (fun kv => Z.of_nat (List.length (strip_trailing_blanks (snd kv)))) columns).

(** The coercion of one cell, by the type of its column. *)
Definition treat_cell (t : tipo) (v : value) : result value :=
  match t with
  | valor => clean_currency v
  | data => if is_int_or_float v then Ret v else to_gs_serial v
  | texto => Ret v
  end.

Fixpoint treat_row (maps : list (string * string * tipo))
         (data_cols : dict (list value)) (r : nat) : result (list value) :=
  match maps with
  | [] => Ret []
  | (src_col, _, t) :: rest =>
      match dict_get src_col data_cols with
      | None => Raise (OtherError "KeyError")
      | Some col =>
          match treat_cell t (nth r col (VStr "")) with
          | Raise e => Raise e
          | Ret v =>
              match treat_row rest data_cols r with
              | Raise e => Raise e
              | Ret row_out => Ret (v :: row_out)
              end
          end
      end
  end.

Fixpoint treat_rows (data_cols : dict (list value)) (rs : list nat)
  : result (list (list value)) :=
  match rs with
  | [] => Ret []
  | r :: rest =>
      match treat_row MAPPINGS data_cols r with
      | Raise e => Raise e
      | Ret row_out =>
          match treat_rows data_cols rest with
          | Raise e => Raise e
          | Ret m => Ret (row_out :: m)
          end
      end
  end.

(** [treated_matrix], one row per [r in range(num_rows_data)] *)
Definition treated_matrix (data_cols : dict (list value)) (num_rows_data : Z)
  : result (list (list value)) :=
  treat_rows data_cols (seq 0 (Z.to_nat num_rows_data)).

(** One call of [set_matrix] on the destination: rows [w_start..w_end] of
    columns B..X receive [w_values]. *)
Record write := mkWrite { w_start : Z; w_end : Z; w_values : list (list value) }.

(** [l[i:j]] for [0 <= i <= j] *)
Definition slice {X} (l : list X) (i j : Z) : list X :=
  firstn (Z.to_nat (j - i)) (skipn (Z.to_nat i) l).

Section ChunkedWrite.

(** [set_matrix k]: how the [k]-th call of [set_matrix] ends, once its own
    retries are over. *)
Variable set_matrix : nat -> result unit.

(** The [while i < num_rows_data] loop; [issued] are the writes made so
    far, in order. *)
Fixpoint write_loop (fuel : nat) (matrix : list (list value))
         (num_rows_data i start_row_dst : Z) (issued : list write)
  : option (result unit * list write) :=
  match fuel with
  | O => None
  | S fuel' =>
      if i <? num_rows_data then
        let chunk := slice matrix i (i + BATCH_ROWS) in
        let chunk_end := start_row_dst + Z.of_nat (List.length chunk) - 1 in
        let issued' := (issued ++ [mkWrite start_row_dst chunk_end chunk])%list in
        match set_matrix (List.length issued) with
        | Raise e => Some (Raise e, issued')
        | Ret _ =>
            write_loop fuel' matrix num_rows_data
                       (i + Z.of_nat (List.length chunk)) (chunk_end + 1) issued'
        end
      else Some (Ret tt, issued)
  end.

(** [if treated_matrix: ...] *)
Definition write_data (fuel : nat) (matrix : list (list value))
           (num_rows_data : Z) : option (result unit * list write) :=
  match matrix with
  | [] => Some (Ret tt, [])
  | _ => write_loop fuel matrix num_rows_data 0 DEST_DATA_START_ROW []
  end.

End ChunkedWrite.

(** The destination rows a write covers. *)
Definition rows_of (w : write) : list Z := py_range (w_start w) (w_end w + 1).

(** [ceil(n / d)] for [d > 0] *)
Definition ceil_div (n d : Z) : Z := (n + d - 1) / d.

(** The [k]-th write of a partition of [matrix] into batches: rows
    [3 + 3000 k] to [3 + 3000 k + 2999], or to the last data row. *)
Definition batch_write (matrix : list (list value)) (k : nat) : write :=
  let lo := BATCH_ROWS * Z.of_nat k in
  mkWrite (DEST_DATA_START_ROW + lo)
          (Z.min (DEST_DATA_START_ROW + lo + BATCH_ROWS - 1)
                 (DEST_DATA_START_ROW + Z.of_nat (List.length matrix) - 1))
          (slice matrix lo (lo + BATCH_ROWS)).

(** What holds each time the test of the write loop is reached, [i] rows
    of [matrix] being written by the writes [issued]. *)
Record write_inv (matrix : list (list value)) (i start_row_dst : Z)
       (issued : list write) : Prop :=
  { inv_range : 0 <= i <= Z.of_nat (List.length matrix);
    inv_start : start_row_dst = DEST_DATA_START_ROW + i;
    inv_count : Z.of_nat (List.length issued) = ceil_div i BATCH_ROWS;
    inv_full : i < Z.of_nat (List.length matrix) ->
               i = BATCH_ROWS * Z.of_nat (List.length issued);
    inv_each : forall k w, nth_error issued k = Some w -> w = batch_write matrix k;
    inv_rows : flat_map rows_of issued
               = py_range DEST_DATA_START_ROW (DEST_DATA_START_ROW + i);
    inv_values : (List.concat (map w_values issued) ++ skipn (Z.to_nat i) matrix)%list
                 = matrix }.

(** The sleep of [with_retry] after a retryable API error at counter
    [attempt], [u] being the value of [random.random()]. *)
Definition retry_delay (base cap : Q) (attempt : Z) (u : Q) : Q :=
  (backoff base cap attempt + (0 + ((1 # 2) - 0) * u))%Q.

(** The sleep of [main] before it restarts after the failure [e] of run
    number [attempt]. *)
Definition restart_delay (attempt : Z) (e : exn) (u : Q) : Q :=
  if is_api_error e then (5 * inject_Z attempt + (0 + ((3 # 2) - 0) * u))%Q
  else (3 + (0 + (1 - 0) * u))%Q.


(** [main] returns what its last run returns, [None] for a normal end. *)
Definition run_outcome (r : result unit) : result unit :=
  match r with
  | Ret _ => Ret tt
  | Raise e => Raise e
  end.

(** A run after which [main] never restarts: a normal end, or an API error
    that is not retryable. *)
Definition final_run (r : result unit) : Prop :=
  match r with
  | Ret _ => True
  | Raise e => is_api_error e = true /\ is_retryable_api_error e = false
  end.

(* ================================================================= *)
(** ** Column letters *)

(** The code points of [c.upper()], for a code point below 256: the small
    letters go to the capitals, the sharp s to two capital S, the micro sign
    and the y with diaeresis to their capitals above 255. *)
Definition upper_code_points (c : ascii) : list Z :=
  let n := Str.code c in
  if (97 <=? n) && (n <=? 122) then [n - 32]
  else if n =? 181 then [924]
  else if n =? 223 then [83; 83]
  else if (224 <=? n) && (n <=? 254) && negb (n =? 247) then [n - 32]
  else if n =? 255 then [376]
  else [n].

(** The loop of [col_letter_to_index] over the characters of [col.upper()]. *)
Definition col_index_from (out : Z) (code_points : list Z) : Z :=
  fold_left (fun out ch => out * 26 + (ch - 65 + 1)) code_points out.

Definition col_letter_to_index (col : string) : Z :=
  col_index_from 0 (flat_map upper_code_points (list_ascii_of_string col)).

(** [chr(n)] for [0 <= n < 256] *)
Definition chr (n : Z) : ascii := ascii_of_N (Z.to_N n).

(** The [while n] loop of [index_to_col_letter]; [divmod] rounds to the
    floor, as [Z.div] and [Z.modulo] do for a positive divisor. *)
Fixpoint index_to_col_letter_loop (fuel : nat) (n : Z) (s : string)
  : option string :=
  match fuel with
  | O => None
  | S fuel' =>
      if n =? 0 then Some s
      else
        let r := (n - 1) mod 26 in
        let n := (n - 1) / 26 in
        index_to_col_letter_loop fuel' n (String (chr (r + 65)) s)
  end.

Definition index_to_col_letter (fuel : nat) (n : Z) : option string :=
  index_to_col_letter_loop fuel n "".

(** A capital letter A..Z. *)
Definition is_capital (c : ascii) : bool :=
  (65 <=? Str.code c) && (Str.code c <=? 90).

Definition DEST_START_COL : string := "B".
Definition DEST_END_COL : string := "X".

(* ================================================================= *)
(** ** The rest of one run *)

(** [vals[0][0] if (vals and vals[0]) else ""], [vals] being the answer to
    the read of one header cell. *)
Definition header_of (vals : list (list value)) : value :=
  match vals with
  | (c :: _) :: _ => c
  | _ => VStr ""
  end.

(** The loop that reads the header: one cell per mapping, [get src_col]
    being the answer to the read of the cell of [src_col] in row 3. *)
Definition read_headers (get : string -> list (list value)) : list value :=
  map (fun m => header_of (get (fst (fst m)))) MAPPINGS.

(** [(1 if headers else 0) + num_rows_data] *)
Definition total_to_write (headers : list value) (num_rows_data : Z) : Z :=
  (match headers with [] => 0 | _ => 1 end) + num_rows_data.

(** [max(DEST_DATA_START_ROW, DEST_HEADER_ROW) + total_to_write - 1]: the
    number of rows asked of [auto_expand_rows]. *)
Definition end_row (headers : list value) (num_rows_data : Z) : Z :=
  Z.max DEST_DATA_START_ROW DEST_HEADER_ROW
  + total_to_write headers num_rows_data - 1.

(** A column padded with "" up to [len] entries. *)
Definition pad_column (len : nat) (v : list value) : list value :=
  (v ++ repeat (VStr "") (len - List.length v))%list.

(** The sum of the sleeps. *)
Definition total_sleep (l : list Q) : Q := fold_right Qplus 0%Q l.

(** ["-%m-%d"], the end of the ISO format, and the check that it reads
    the month [m] and the day [dd] written with two digits each. *)
Definition iso_tail_format : list Strptime.item :=
  [Strptime.Lit "-"; Strptime.Dir Strptime.Dm; Strptime.Lit "-";
   Strptime.Dir Strptime.Dd].

Definition iso_tail (m dd : Z) : string :=
  "-" ++ Cal.zero_pad 2 m ++ "-" ++ Cal.zero_pad 2 dd.

Definition iso_tail_ok (m dd : Z) : bool :=
  match Strptime.fmt_match iso_tail_format (iso_tail m dd) with
  | ([(Strptime.Dm, a); (Strptime.Dd, b)], "") :: _ =>
      (Strptime.group_int a =? m) && (Strptime.group_int b =? dd)
      && Str.forallb (fun c => negb (Str.is_space c)) (iso_tail m dd)
  | _ => false
  end.

(** A date written day first, ["%d/%m/%Y"]: [DD/MM/] then the year. *)
Definition dmy_head (dd m : Z) : string :=
  Cal.zero_pad 2 dd ++ "/" ++ Cal.zero_pad 2 m ++ "/".

Definition dmy_str (d : date) : string :=
  dmy_head (day d) (month d) ++ Cal.zero_pad 4 (year d).

(** ["%d/%m/"], the beginning of the day-first formats. *)
Definition dmy_head_format : list Strptime.item :=
  [Strptime.Dir Strptime.Dd; Strptime.Lit "/";
   Strptime.Dir Strptime.Dm; Strptime.Lit "/"].

(** The year that ["%y"] gives to two digits: 00..68 are 2000..2068 and
    69..99 are 1969..1999. *)
Definition pivot_year (yy : Z) : Z :=
  if yy <=? 68 then yy + 2000 else yy + 1900.

Definition date_eqb (a b : date) : bool :=
  (year a =? year b) && (month a =? month b) && (day a =? day b).

(** The check that the text [DD/MM/YY] is not blank and parses to the date
    of the pivot year when that date exists, and to nothing otherwise. *)
Definition two_digit_year_ok (yy m dd : Z) : bool :=
  let text := dmy_head dd m ++ Cal.zero_pad 2 yy in
  let d := mkDate (pivot_year yy) m dd in
  negb (String.eqb text "") && String.eqb (Str.strip text) text
  && match first_parse text Strptime.formats with
     | Some d' => Cal.valid d && date_eqb d' d
     | None => negb (Cal.valid d)
     end.

(** The data path of [run_once], from the answer [batch] of the batched
    read to the writes of the data rows: normalisation, row count, coercion
    and chunked write. [None] stands for a loop that has not ended within
    [fuel]; an error of the coercion comes before any write. *)
Definition run_data (set_matrix : nat -> result unit) (fuel : nat)
           (batch : list (list (list value)))
  : option (result unit * list write) :=
  let data_cols := normalize batch in
  match calc_num_rows_from_columns data_cols with
  | None => None
  | Some num_rows_data =>
      match treated_matrix data_cols num_rows_data with
      | Raise e => Some (Raise e, [])
      | Ret matrix => write_data set_matrix fuel matrix num_rows_data
      end
  end.

(** A cell as the remote API gives it: empty, text, boolean or number, the
    integers being those a float holds exactly. *)
Definition api_cell (v : value) : Prop :=
  match v with
  | VInt n => - 2 ^ 53 < n < 2 ^ 53
  | VDate _ | VDateTime _ _ => False
  | _ => True
  end.

(* ================================================================= *)
(** ** The float constants of the examples *)

(** 1234.56, 1.23456, 1500.0 and 45306.0 as binary64 values. *)
Definition f_1234_56 : spec_float := S754_finite false 5429652300748554 (-42).
Definition f_1_23456 : spec_float := S754_finite false 5559963955966520 (-52).
Definition f_1500 : spec_float := S754_finite false 6597069766656000 (-42).
Definition f_45306 : spec_float := S754_finite false 6226809226002432 (-37).

(** [f] is within half a unit in the last place of the rational [q]:
    [f], a normal binary64 value of exponent [e], is the float nearest to [q]. *)
Definition nearest_to (f : spec_float) (q : Q) : Prop :=
  match f with
  | S754_finite _ m e =>
      Pos.size m = 53%positive
      /\ (Qabs (Float.to_Q f - q) <= Float.to_Q (S754_finite false 1 (e - 1)))%Q
  | _ => False
  end.

(** [isinstance(v, (int, float))] or the empty string: what a coercer may
    return. *)
Definition number_or_empty (v : value) : Prop :=
  is_int_or_float v = true \/ v = VStr "".

(** The dates a value carries are dates that [datetime] can build. *)
Definition well_formed (v : value) : Prop :=
  match v with
  | VDate d | VDateTime d _ => Cal.valid d = true
  | _ => True
  end.

(** A blank entry in the words of the specification: a text that is empty
    or made of white space only. It is stated on the characters, not with
    the test of the code. *)
Definition blank_text (x : value) : Prop :=
  exists s, x = VStr s /\ Str.forallb Str.is_space s = true.

(* ================================================================= *)
(** ** The claims as the specification states them, where they fail *)

(** The five currency examples as stated. *)
Definition currency_examples_as_stated : Prop :=
  clean_currency (VStr "1.234,56") = Ret (VFloat f_1234_56)
  /\ clean_currency (VStr "1,234.56") = Ret (VFloat f_1234_56)
  /\ clean_currency (VStr "") = Ret (VStr "")
  /\ clean_currency (VStr "abc") = Ret (VStr "")
  /\ clean_currency (VInt 1500) = Ret (VFloat f_1500).

(** Every failed run is restarted: a run is fatal only when all
    [MAX_RUN_TRIES] runs have been made. *)
Definition fatal_only_when_exhausted : Prop :=
  forall (run_once : nat -> result unit) (rand : nat -> Q) e w,
    main run_once rand = (Raise e, w) ->
    Z.of_nat (calls w) = MAX_RUN_TRIES.

(** Both coercers return a number or the empty string on every value. *)
Definition coercers_total : Prop :=
  forall v : value,
    (exists r, clean_currency v = Ret r /\ number_or_empty r)
    /\ (exists r, to_gs_serial v = Ret r /\ number_or_empty r).

(** Every normalised column has the length of the scan limit. *)
Definition normalized_to_scan_limit : Prop :=
  forall batch src_col flat,
    dict_get src_col (normalize batch) = Some flat ->
    Z.of_nat (List.length flat) = MAX_ROWS_SCAN.

(* ================================================================= *)
(** * Properties *)

(* ----------------------------------------------------------------- *)
(** ** Strings *)

Lemma prefix_spec (p s : string) :
  String.prefix p s = true <-> exists post, s = p ++ post.
Proof.
  revert s; induction p as [|c p IH]; intros s; simpl.
  - split; [intros _; now exists s | intros _; now destruct s].
  - destruct s as [|d s]; simpl.
    + split; [discriminate | intros [post H]; discriminate].
    + destruct (Ascii.ascii_dec c d) as [->|Hne].
      * rewrite IH. split; intros [post H]; exists post.
        -- now rewrite H.
        -- now injection H.
      * split; [discriminate | intros [post H]; injection H; intros; congruence].
Qed.

Lemma contains_spec (sub s : string) :
  Str.contains sub s = true <-> exists pre post, s = pre ++ sub ++ post.
Proof.
  induction s as [|c s IH].
  - cbn [Str.contains]. rewrite orb_false_r, prefix_spec. split.
    + intros [post H]. now exists "", post.
    + intros [pre [post H]]. destruct pre; simpl in H; [now exists post | discriminate].
  - cbn [Str.contains]. rewrite orb_true_iff, prefix_spec, IH. split.
    + intros [[post H] | [pre [post H]]].
      * now exists "", post.
      * exists (String c pre), post. simpl. now rewrite H.
    + intros [pre [post H]]. destruct pre as [|d pre]; simpl in H.
      * left. now exists post.
      * right. injection H as _ H. now exists pre, post.
Qed.

(* ----------------------------------------------------------------- *)
(** ** The error classifier *)

(** C7. An API error is retryable exactly when its rendered text contains
    one of "429", "500", "502", "503" as a substring; texts that only carry
    400, 403 or 404 are not retryable. *)
Theorem is_retryable_iff_contains_code :
  (forall text : string,
      is_retryable_api_error (APIError text) = true
      <-> exists code pre post,
          In code ["429"; "500"; "502"; "503"] /\ text = pre ++ code ++ post)
  /\ is_retryable_api_error (APIError "APIError: [400]: Invalid range") = false
  /\ is_retryable_api_error (APIError "APIError: [403]: Forbidden") = false
  /\ is_retryable_api_error (APIError "APIError: [404]: Not found") = false
  /\ is_retryable_api_error (APIError "status: 503") = true.
Proof.
  split; [|repeat split; reflexivity].
  intros text. unfold is_retryable_api_error, RETRY_CODES. cbn [exn_text].
  rewrite existsb_exists. split.
  - intros [code [Hin Hc]]. apply contains_spec in Hc as [pre [post H]].
    now exists code, pre, post.
  - intros [code [pre [post [Hin H]]]]. exists code. split; [exact Hin|].
    apply contains_spec. now exists pre, post.
Qed.

(* ----------------------------------------------------------------- *)
(** ** The coercers on the examples *)

Ltac by_evaluation := vm_compute; first [reflexivity | discriminate | easy].

Lemma nearest_1234_56 : nearest_to f_1234_56 (123456 # 100).
Proof. split; [reflexivity | by_evaluation]. Qed.

Lemma nearest_1_23456 : nearest_to f_1_23456 (123456 # 100000).
Proof. split; [reflexivity | by_evaluation]. Qed.

Lemma f_1500_exact : (Float.to_Q f_1500 == 1500)%Q.
Proof. by_evaluation. Qed.

Lemma f_45306_exact : (Float.to_Q f_45306 == 45306)%Q.
Proof. by_evaluation. Qed.

(** C1, as stated: the text "1,234.56" is not read as 1234.56. *)
Lemma currency_examples_as_stated_fail : ~ currency_examples_as_stated.
Proof.
  intros (_ & H & _). vm_compute in H. discriminate H.
Qed.

(** C1, amended. [clean_currency] maps "1.234,56" to the float 1234.56, "" to
    "", "abc" to "" and the number 1500 to the float 1500.0; it maps
    "1,234.56" to the float 1.23456, the points being dropped as thousands
    separators and the comma read as the decimal point. *)
Theorem clean_currency_examples :
  clean_currency (VStr "1.234,56") = Ret (VFloat f_1234_56)
  /\ nearest_to f_1234_56 (123456 # 100)
  /\ clean_currency (VStr "1,234.56") = Ret (VFloat f_1_23456)
  /\ nearest_to f_1_23456 (123456 # 100000)
  /\ clean_currency (VStr "") = Ret (VStr "")
  /\ clean_currency (VStr "abc") = Ret (VStr "")
  /\ clean_currency (VInt 1500) = Ret (VFloat f_1500)
  /\ (Float.to_Q f_1500 == 1500)%Q.
Proof.
  repeat split; try (vm_compute; reflexivity); by_evaluation.
Qed.

(** C8. The date 2024-01-15, the text "15/01/2024" and the text "2024-01-15"
    all give the same serial, the float of (2024-01-15 - epoch).days, which
    is 45306.0; the text "not-a-date" gives the empty string. *)
Theorem to_gs_serial_examples :
  to_gs_serial (VDate (mkDate 2024 1 15)) = Ret (VFloat f_45306)
  /\ to_gs_serial (VStr "15/01/2024") = Ret (VFloat f_45306)
  /\ to_gs_serial (VStr "2024-01-15") = Ret (VFloat f_45306)
  /\ Float.of_int (Cal.days_between (mkDate 2024 1 15) epoch) = Ret f_45306
  /\ Cal.days_between (mkDate 2024 1 15) epoch = 45306
  /\ (Float.to_Q f_45306 == 45306)%Q
  /\ to_gs_serial (VStr "not-a-date") = Ret (VStr "").
Proof.
  repeat split; try (vm_compute; reflexivity); by_evaluation.
Qed.

(* ----------------------------------------------------------------- *)
(** ** Totality of the coercers *)

(** *** The text given to [float()] *)

Lemma filter_forallb (p : ascii -> bool) (s : string) :
  Str.forallb p (Str.filter p s) = true.
Proof.
  induction s as [|c s IH]; [reflexivity|]. simpl.
  destruct (p c) eqn:E; [simpl; now rewrite E | exact IH].
Qed.

Lemma forallb_append (p : ascii -> bool) (a b : string) :
  Str.forallb p (a ++ b) = Str.forallb p a && Str.forallb p b.
Proof.
  induction a as [|c a IH]; [reflexivity|]. simpl.
  now rewrite IH, andb_assoc.
Qed.

Lemma replace_char_forallb (p q : ascii -> bool) (c : ascii) (r s : string) :
  Str.forallb q r = true ->
  (forall d, d <> c -> p d = true -> q d = true) ->
  Str.forallb p s = true ->
  Str.forallb q (Str.replace_char c r s) = true.
Proof.
  intros Hr Hpq. induction s as [|d s IH]; [reflexivity|]. simpl.
  intros H. apply andb_true_iff in H as [Hd Hs].
  destruct (Ascii.eqb_spec c d) as [-> | Hne].
  - rewrite forallb_append, Hr. now apply IH.
  - simpl. rewrite (Hpq d) by congruence. now apply IH.
Qed.

Lemma no_char_forallb (p q : ascii -> bool) (c : ascii) (s : string) :
  (forall d, d <> c -> p d = true -> q d = true) ->
  Str.has_char c s = false ->
  Str.forallb p s = true ->
  Str.forallb q s = true.
Proof.
  intros Hpq. induction s as [|d s IH]; [reflexivity|]. simpl.
  intros Hc H. apply orb_false_iff in Hc as [Hcd Hc].
  apply andb_true_iff in H as [Hd Hs].
  apply Ascii.eqb_neq in Hcd.
  rewrite (Hpq d) by congruence. now apply IH.
Qed.

Lemma currency_char_cases (d : ascii) :
  currency_char d = true ->
  Str.is_digit d = true \/ d = ","%char \/ d = "."%char \/ d = "-"%char.
Proof.
  unfold currency_char. rewrite !orb_true_iff, !Ascii.eqb_eq. tauto.
Qed.

(** Whatever the cell holds, [float()] gets a text made of digits, points
    and minus signs. *)
Lemma float_text_chars (text : string) :
  Str.forallb float_char
    (fix_separators (Str.filter currency_char (Str.strip text))) = true.
Proof.
  pose proof (filter_forallb currency_char (Str.strip text)) as H.
  set (s := Str.filter currency_char (Str.strip text)) in *. clearbody s.
  unfold fix_separators.
  destruct (Str.has_char "," s) eqn:Hc, (Str.has_char "." s) eqn:Hd; cbn [andb negb].
  - apply (replace_char_forallb
             (fun d => Str.is_digit d || Ascii.eqb d "," || Ascii.eqb d "-")
             float_char "," "." _ eq_refl).
    + intros d Hne Hp. unfold float_char.
      rewrite !orb_true_iff, !Ascii.eqb_eq in *. tauto.
    + apply (replace_char_forallb currency_char _ "." "" s eq_refl); [|exact H].
      intros d Hne Hp. apply currency_char_cases in Hp.
      rewrite !orb_true_iff, !Ascii.eqb_eq. tauto.
  - apply (replace_char_forallb currency_char float_char "," "." s eq_refl);
      [|exact H].
    intros d Hne Hp. apply currency_char_cases in Hp. unfold float_char.
    rewrite !orb_true_iff, !Ascii.eqb_eq. tauto.
  - apply (no_char_forallb currency_char float_char "," s); [|exact Hc | exact H].
    intros d Hne Hp. apply currency_char_cases in Hp. unfold float_char.
    rewrite !orb_true_iff, !Ascii.eqb_eq. tauto.
  - apply (no_char_forallb currency_char float_char "," s); [|exact Hc | exact H].
    intros d Hne Hp. apply currency_char_cases in Hp. unfold float_char.
    rewrite !orb_true_iff, !Ascii.eqb_eq. tauto.
Qed.

(** The text path of [clean_currency] always returns. *)
Lemma clean_currency_text_total (text : string) :
  number_or_empty (clean_currency_text text).
Proof.
  unfold clean_currency_text, number_or_empty.
  destruct (Float.of_string _); [left | right]; reflexivity.
Qed.

(** [clean_currency] returns a number or "" whenever its argument is not an
    [int] beyond the range of a float. *)
Lemma clean_currency_total_but_overflow (v : value) :
  (forall n, v = VInt n -> Float.of_int n <> Raise OverflowError) ->
  exists r, clean_currency v = Ret r /\ number_or_empty r.
Proof.
  intros Hn. unfold clean_currency.
  destruct (is_none_or_empty v) eqn:He.
  - exists (VStr ""). split; [reflexivity | now right].
  - destruct v; try (eexists; split; [reflexivity | first [now left | now right | apply clean_currency_text_total]]).
    specialize (Hn n eq_refl). unfold Float.of_int in *.
    destruct (Float.of_Z n); try (eexists; split; [reflexivity | now left]).
    now contradiction Hn.
Qed.

(** *** Small integers convert to floats without overflow *)

Lemma digits2_pos_size (p : positive) : digits2_pos p = Pos.size p.
Proof. induction p as [p IH | p IH |]; simpl; now rewrite ?IH. Qed.

Lemma digits2_pos_shift (p k : positive) :
  digits2_pos (Pos.iter xO p k) = (digits2_pos p + k)%positive.
Proof.
  induction k as [|k IH] using Pos.peano_ind.
  - simpl. lia.
  - rewrite Pos.iter_succ. simpl. rewrite IH. lia.
Qed.

(** A mantissa of exactly 53 bits with an exponent in range is kept as it
    is by the rounding. *)
Lemma binary_round_aux_exact (s : bool) (m : positive) (e : Z) :
  digits2_pos m = 53%positive ->
  -1074 <= e <= 971 ->
  binary_round_aux Float.prec Float.emax s (Zpos m) e loc_Exact
  = S754_finite s m e.
Proof.
  intros Hd He. unfold binary_round_aux, shr_fexp.
  cbn [Zdigits2 shr_record_of_loc]. rewrite Hd.
  assert (Hf : fexp Float.prec Float.emax (53 + e) - e = 0)
    by (unfold fexp, emin, Float.prec, Float.emax; lia).
  rewrite Hf. cbn [shr shr_m loc_of_shr_record round_nearest_even Zdigits2].
  rewrite Hd, Hf. cbn [shr shr_m].
  unfold Float.prec, Float.emax.
  destruct (Z.leb_spec e (1024 - 53)); [reflexivity | lia].
Qed.

Lemma binary_round_small (s : bool) (p : positive) :
  (digits2_pos p <= 53)%positive ->
  exists m e, binary_round Float.prec Float.emax s p 0 = S754_finite s m e.
Proof.
  intros Hd. unfold binary_round, shl_align.
  assert (Hf : fexp Float.prec Float.emax (Zpos (digits2_pos p) + 0)
               = Zpos (digits2_pos p) - 53)
    by (unfold fexp, emin, Float.prec, Float.emax; lia).
  rewrite Hf.
  destruct (Zpos (digits2_pos p) - 53 - 0) as [|q|q] eqn:Hq; try lia.
  - exists p, 0. apply binary_round_aux_exact; lia.
  - exists (Pos.iter xO p q), (Zpos (digits2_pos p) - 53).
    apply binary_round_aux_exact; [|lia].
    rewrite digits2_pos_shift. lia.
Qed.

Lemma small_digits (p : positive) :
  Zpos p < 2 ^ 53 -> (digits2_pos p <= 53)%positive.
Proof.
  intros Hp. rewrite digits2_pos_size.
  destruct (Z.le_gt_cases (Zpos (Pos.size p)) 53) as [H | H]; [exact H|].
  exfalso. pose proof (Pos.size_le p) as Hs.
  assert (Hpow : 2 ^ 54 <= 2 ^ Zpos (Pos.size p))
    by (apply Z.pow_le_mono_r; lia).
  assert (Hz : 2 ^ Zpos (Pos.size p) <= Zpos p~0).
  { rewrite <- Pos2Z.inj_pow. apply Pos2Z.pos_le_pos. exact Hs. }
  change (2 ^ 54) with (2 * 2 ^ 53) in Hpow. lia.
Qed.

(** [float(n)] does not overflow for [|n| < 2^53]. *)
Lemma of_int_small (n : Z) :
  - 2 ^ 53 < n < 2 ^ 53 ->
  exists f, Float.of_int n = Ret f.
Proof.
  intros Hn. unfold Float.of_int, Float.of_Z, binary_normalize.
  destruct n as [|p|p].
  - now exists (S754_zero false).
  - destruct (binary_round_small false p) as [m [e ->]];
      [apply small_digits; lia | now eexists].
  - destruct (binary_round_small true p) as [m [e ->]];
      [apply small_digits; lia | now eexists].
Qed.

(** *** Dates *)

Lemma days_in_month_bound (y m : Z) :
  1 <= m <= 12 -> 28 <= Cal.days_in_month y m <= 31.
Proof.
  intros Hm. unfold Cal.days_in_month.
  assert (m = 1 \/ m = 2 \/ m = 3 \/ m = 4 \/ m = 5 \/ m = 6 \/ m = 7
          \/ m = 8 \/ m = 9 \/ m = 10 \/ m = 11 \/ m = 12) as Hc by lia.
  repeat (destruct Hc as [-> | Hc]); try subst m;
    destruct (Cal.is_leap y); vm_compute; split; discriminate.
Qed.

Lemma days_before_month_bound (y m : Z) :
  1 <= m <= 12 -> 0 <= Cal.days_before_month y m <= 335.
Proof.
  intros Hm. unfold Cal.days_before_month.
  assert (m = 1 \/ m = 2 \/ m = 3 \/ m = 4 \/ m = 5 \/ m = 6 \/ m = 7
          \/ m = 8 \/ m = 9 \/ m = 10 \/ m = 11 \/ m = 12) as Hc by lia.
  repeat (destruct Hc as [-> | Hc]); try subst m;
    destruct (Cal.is_leap y); vm_compute; split; discriminate.
Qed.

(** The ordinal of a valid date is far below 2^53. *)
Lemma toordinal_bound (d : date) :
  Cal.valid d = true -> 1 <= Cal.toordinal d <= 3660000.
Proof.
  unfold Cal.valid, Cal.MINYEAR, Cal.MAXYEAR. intros H.
  repeat (apply andb_true_iff in H as [H ?]).
  pose proof (days_in_month_bound (year d) (month d)).
  pose proof (days_before_month_bound (year d) (month d)).
  unfold Cal.toordinal, Cal.days_before_year. cbv zeta.
  Z.to_euclidean_division_equations. lia.
Qed.

(** The serial of a valid date is a float. *)
Lemma serial_of_total (d : date) :
  Cal.valid d = true -> exists f, serial_of d = Ret (VFloat f).
Proof.
  intros Hv. unfold serial_of, Cal.days_between.
  pose proof (toordinal_bound d Hv) as Hd.
  destruct (of_int_small (Cal.toordinal d - Cal.toordinal epoch)) as [f ->].
  - change (Cal.toordinal epoch) with 693594.
    change (2 ^ 53) with 9007199254740992. lia.
  - now exists f.
Qed.

Lemma first_parse_valid (s : string) (fmts : list (list Strptime.item)) (d : date) :
  first_parse s fmts = Some d -> Cal.valid d = true.
Proof.
  induction fmts as [|fmt rest IH]; [cbn; discriminate|]. cbn [first_parse].
  destruct (Strptime.strptime_date s fmt) as [d' | e] eqn:E; [|exact IH].
  intros [= <-]. unfold Strptime.strptime_date in E.
  destruct (Strptime.fmt_match fmt s) as [|[g r] l]; [discriminate|].
  destruct r; [|discriminate].
  destruct (Cal.valid (Strptime.assign g _)) eqn:Hv; [|discriminate E].
  injection E as <-. exact Hv.
Qed.

(** [to_gs_serial] returns a number or "" on every value. *)
Lemma to_gs_serial_total (v : value) :
  well_formed v ->
  exists r, to_gs_serial v = Ret r /\ number_or_empty r.
Proof.
  intros Hwf. unfold to_gs_serial.
  destruct (is_none_or_empty v); [exists (VStr ""); split; [reflexivity | now right]|].
  destruct (is_int_or_float v) eqn:Hn; [exists v; split; [reflexivity | now left]|].
  destruct v; try discriminate Hn;
    try (exists (VStr ""); split; [reflexivity | now right]).
  - destruct (String.eqb (Str.strip s) "");
      [exists (VStr ""); split; [reflexivity | now right]|].
    destruct (first_parse (Str.strip s) Strptime.formats) as [d|] eqn:Hp;
      [|exists (VStr ""); split; [reflexivity | now right]].
    destruct (serial_of_total d (first_parse_valid _ _ _ Hp)) as [f ->].
    exists (VFloat f). split; [reflexivity | now left].
  - destruct (serial_of_total d Hwf) as [f ->].
    exists (VFloat f). split; [reflexivity | now left].
  - destruct (serial_of_total d Hwf) as [f ->].
    exists (VFloat f). split; [reflexivity | now left].
Qed.

(** C9. [clean_currency] raises on an [int] too large for a float, where the
    text path of the same function turns a failed conversion into "".
    It returns a number or "" on every text and on every other value that
    is not such an [int]; [to_gs_serial] returns a number or "" on every
    value. *)
Theorem clean_currency_raises_on_huge_int :
  clean_currency (VInt (2 ^ 1024)) = Raise OverflowError
  /\ (forall s, exists r, clean_currency (VStr s) = Ret r /\ number_or_empty r)
  /\ (forall v,
         (forall n, v = VInt n -> - 2 ^ 53 < n < 2 ^ 53) ->
         exists r, clean_currency v = Ret r /\ number_or_empty r)
  /\ (forall v,
         well_formed v ->
         exists r, to_gs_serial v = Ret r /\ number_or_empty r)
  /\ ~ coercers_total.
Proof.
  assert (H : clean_currency (VInt (2 ^ 1024)) = Raise OverflowError)
    by (vm_compute; reflexivity).
  split; [exact H|]. split; [|split; [|split; [exact to_gs_serial_total|]]].
  - intros s. apply clean_currency_total_but_overflow. discriminate.
  - intros v Hv. apply clean_currency_total_but_overflow.
    intros n Hn. destruct (of_int_small n (Hv n Hn)) as [f ->]. discriminate.
  - intros Ht. destruct (Ht (VInt (2 ^ 1024))) as [[r [Hr _]] _].
    rewrite H in Hr. discriminate Hr.
Qed.

(* ----------------------------------------------------------------- *)
(** ** Normalisation of the batched read *)

Lemma flatten_rows_length (raw : list (list value)) :
  List.length (flatten_rows raw) = List.length raw.
Proof. apply length_map. Qed.

(** The column of the [i]-th mapping is the [i]-th range, flattened. *)
Lemma normalize_get (batch : list (list (list value))) (i : nat) src dst t :
  nth_error MAPPINGS i = Some (src, dst, t) ->
  dict_get src (normalize batch) = Some (flatten_rows (nth i batch [])).
Proof.
  intros H.
  do 23 (destruct i as [|i]; [injection H as <- _ _; reflexivity|]).
  destruct i; discriminate H.
Qed.

(** C2. The normalised column has the length of the range as returned, not
    of the scan limit: when each of the 23 ranges comes back with one row,
    each column has one entry. Only an empty row inside a range becomes
    "". *)
Theorem normalize_keeps_returned_length :
  (forall batch i src dst t,
      nth_error MAPPINGS i = Some (src, dst, t) ->
      exists flat,
        dict_get src (normalize batch) = Some flat
        /\ List.length flat = List.length (nth i batch []))
  /\ dict_get "AC" (normalize (repeat [[VStr "x"]] 23)) = Some [VStr "x"]
  /\ flatten_rows [[VStr "x"]; []; [VInt 3]] = [VStr "x"; VStr ""; VInt 3]
  /\ ~ normalized_to_scan_limit.
Proof.
  split; [|split; [reflexivity | split; [reflexivity|]]].
  - intros batch i src dst t H. eexists. split.
    + exact (normalize_get batch i src dst t H).
    + apply flatten_rows_length.
  - intros Hc.
    specialize (Hc (repeat [[VStr "x"]] 23) "AC" [VStr "x"] eq_refl).
    vm_compute in Hc. discriminate Hc.
Qed.

(* ----------------------------------------------------------------- *)
(** ** Row-count inference *)

Lemma last_cell_app (l : list value) (x : value) :
  last_cell (l ++ [x]) = Some x.
Proof.
  induction l as [|y l IH]; [reflexivity|].
  simpl. destruct (l ++ [x])%list eqn:E; [now destruct l | exact IH].
Qed.

Lemma strip_trailing_blanks_app (l : list value) (x : value) :
  strip_trailing_blanks (l ++ [x])
  = if is_blank_cell x then strip_trailing_blanks l else (l ++ [x])%list.
Proof.
  induction l as [|y l IH]; simpl.
  - now destruct (is_blank_cell x).
  - rewrite IH. destruct (is_blank_cell x); [reflexivity|].
    now destruct (l ++ [x])%list eqn:E; [destruct l|].
Qed.

(** The inner loop, given one iteration per cell and one for the exit test,
    ends and strips exactly the trailing blanks. *)
Lemma pop_loop_spec (fuel : nat) :
  forall v, (List.length v < fuel)%nat ->
            pop_loop fuel v = Some (strip_trailing_blanks v).
Proof.
  induction fuel as [|fuel IH]; intros v Hlen; [lia|].
  destruct v as [|y l] using rev_ind; [reflexivity|]. clear IHl.
  cbn [pop_loop]. rewrite last_cell_app, strip_trailing_blanks_app.
  destruct (is_blank_cell y); [|reflexivity].
  rewrite removelast_last. apply IH.
  rewrite length_app in Hlen. simpl in Hlen. lia.
Qed.

Lemma infer_row_count_nonneg (cols : dict (list value)) :
  0 <= infer_row_count cols.
Proof.
  induction cols as [|kv cols IH]; [reflexivity|].
  unfold infer_row_count in *. simpl. lia.
Qed.

Lemma calc_loop_spec (items : dict (list value)) :
  forall max_len,
    0 <= max_len ->
    calc_loop items max_len = Some (Z.max max_len (infer_row_count items)).
Proof.
  induction items as [|[col values] rest IH]; intros max_len Hpos.
  - simpl. f_equal. unfold infer_row_count. simpl. lia.
  - cbn [calc_loop]. rewrite pop_loop_spec by lia.
    pose proof (infer_row_count_nonneg rest) as Hrest.
    unfold infer_row_count in *. cbn [map fold_right snd].
    destruct (Z.ltb_spec max_len
                (Z.of_nat (List.length (strip_trailing_blanks values))));
      rewrite IH by lia; f_equal; lia.
Qed.

(** What stripping does: the column is the remainder followed by blank
    entries only, and the remainder does not end with a blank entry. *)
Lemma strip_trailing_blanks_spec (v : list value) :
  exists blanks,
    v = (strip_trailing_blanks v ++ blanks)%list
    /\ forallb is_blank_cell blanks = true
    /\ match last_cell (strip_trailing_blanks v) with
       | Some x => is_blank_cell x = false
       | None => strip_trailing_blanks v = []
       end.
Proof.
  induction v as [|y l IH] using rev_ind.
  - exists []. repeat split.
  - rewrite strip_trailing_blanks_app. destruct (is_blank_cell y) eqn:Hy.
    + destruct IH as [blanks [Hv [Hb Hl]]].
      exists (blanks ++ [y])%list. repeat split.
      * rewrite app_assoc, <- Hv. reflexivity.
      * rewrite forallb_app, Hb. simpl. now rewrite Hy.
      * exact Hl.
    + exists []. rewrite app_nil_r, last_cell_app. repeat split. exact Hy.
Qed.

Lemma strip_all_blank (v : list value) :
  forallb is_blank_cell v = true -> strip_trailing_blanks v = [].
Proof.
  induction v as [|x t IH]; [reflexivity|]. simpl.
  intros H. apply andb_true_iff in H as [Hx Ht].
  now rewrite IH, Hx.
Qed.

Lemma lstrip_empty (s : string) :
  Str.lstrip s = "" <-> Str.forallb Str.is_space s = true.
Proof.
  induction s as [|c s IH]; simpl; [tauto|].
  destruct (Str.is_space c); simpl; [exact IH|].
  split; discriminate.
Qed.

Lemma rstrip_empty (s : string) :
  Str.rstrip s = "" <-> Str.forallb Str.is_space s = true.
Proof.
  induction s as [|c s IH]; simpl; [tauto|].
  destruct (Str.rstrip s) eqn:E.
  - destruct (Str.is_space c); simpl.
    + split; [intros _; now apply IH | reflexivity].
    + split; discriminate.
  - split; [discriminate|]. intros H.
    apply andb_true_iff in H as [_ H]. apply IH in H. discriminate H.
Qed.

Lemma lstrip_head (s : string) :
  match Str.lstrip s with
  | "" => True
  | String c _ => Str.is_space c = false
  end.
Proof.
  induction s as [|c s IH]; simpl; [exact I|].
  destruct (Str.is_space c) eqn:E; [exact IH | exact E].
Qed.

(** [s.strip() == ""] exactly when [s] is empty or made of white space. *)
Lemma strip_empty (s : string) :
  Str.strip s = "" <-> Str.forallb Str.is_space s = true.
Proof.
  unfold Str.strip. rewrite rstrip_empty. split.
  - intros H. apply lstrip_empty.
    pose proof (lstrip_head s) as Hh.
    destruct (Str.lstrip s) as [|c t]; [reflexivity|].
    simpl in H. rewrite Hh in H. discriminate H.
  - intros H. apply lstrip_empty in H. now rewrite H.
Qed.

(** A cell is blank exactly when it is a text that is empty or made of
    white space only. *)
Lemma is_blank_cell_spec (v : value) :
  is_blank_cell v = true
  <-> exists s, v = VStr s /\ Str.forallb Str.is_space s = true.
Proof.
  destruct v; simpl;
    try (split; [discriminate | intros [s0 [H _]]; discriminate H]).
  rewrite orb_true_iff, !String.eqb_eq, strip_empty. split.
  - intros [-> | H]; eexists; split; reflexivity || eassumption.
  - intros [s0 [[= <-] H]]. now right.
Qed.

(** Blank entries added at the end are stripped with the rest. *)
Lemma strip_blank_run (v blanks : list value) :
  (forall x, In x blanks -> is_blank_cell x = true) ->
  strip_trailing_blanks (v ++ blanks) = strip_trailing_blanks v.
Proof.
  induction blanks as [|x b IH] using rev_ind; intros H.
  - now rewrite app_nil_r.
  - rewrite app_assoc, strip_trailing_blanks_app.
    rewrite (H x) by (apply in_or_app; right; now left).
    apply IH. intros y Hy. apply H. apply in_or_app. now left.
Qed.

(** A column that does not end with a blank entry is left as it is. *)
Lemma strip_kept (kept : list value) :
  (forall x, last_cell kept = Some x -> is_blank_cell x = false) ->
  strip_trailing_blanks kept = kept.
Proof.
  destruct kept as [|y l _] using rev_ind; intros H; [reflexivity|].
  rewrite strip_trailing_blanks_app.
  now rewrite (H y (last_cell_app l y)).
Qed.

Lemma not_blank_text (x : value) :
  ~ blank_text x -> is_blank_cell x = false.
Proof.
  intros H. destruct (is_blank_cell x) eqn:E; [|reflexivity].
  contradiction H. now apply is_blank_cell_spec.
Qed.

(** C4. [calc_num_rows_from_columns] returns the largest, over the columns,
    of the length left once the trailing run of blank entries (empty or
    white space only) is stripped, and 0 when every column is blank. The
    stripping is the one of the specification: the test of the code holds
    exactly of the texts that are empty or made of white space, and
    whenever a column is a part that does not end with such a text followed
    by such texts only, that part is what is left. So ["x"; ""; " "] counts
    for 1 and the empty and blank-only columns for 0. *)
Theorem calc_num_rows_is_max_trimmed_length (cols_dict : dict (list value)) :
  calc_num_rows_from_columns cols_dict = Some (infer_row_count cols_dict)
  /\ (forall col values,
         In (col, values) cols_dict ->
         Z.of_nat (List.length (strip_trailing_blanks values))
         <= infer_row_count cols_dict)
  /\ (infer_row_count cols_dict = 0
      \/ exists col values,
          In (col, values) cols_dict
          /\ infer_row_count cols_dict
             = Z.of_nat (List.length (strip_trailing_blanks values)))
  /\ ((forall col values x,
          In (col, values) cols_dict -> In x values -> blank_text x) ->
      calc_num_rows_from_columns cols_dict = Some 0)
  /\ (forall x, is_blank_cell x = true <-> blank_text x)
  /\ (forall values kept blanks,
         values = (kept ++ blanks)%list ->
         (forall x, In x blanks -> blank_text x) ->
         (forall x, last_cell kept = Some x -> ~ blank_text x) ->
         strip_trailing_blanks values = kept)
  /\ (forall values,
         exists blanks,
           values = (strip_trailing_blanks values ++ blanks)%list
           /\ (forall x, In x blanks -> blank_text x)
           /\ (forall x, last_cell (strip_trailing_blanks values) = Some x ->
                         ~ blank_text x))
  /\ calc_num_rows_from_columns
       [("AC", [VStr "x"; VStr ""; VStr " "]);
        ("AD", [VStr "y"; VNone; VStr ""; VStr ""]);
        ("AF", [])]
     = Some 2
  /\ calc_num_rows_from_columns [("AC", [VStr "x"; VStr ""; VStr " "])]
     = Some 1
  /\ calc_num_rows_from_columns [("AC", [VStr ""; VStr "  "]); ("AD", [])]
     = Some 0.
Proof.
  assert (Hcalc : calc_num_rows_from_columns cols_dict
                  = Some (infer_row_count cols_dict)).
  { unfold calc_num_rows_from_columns. rewrite calc_loop_spec by lia.
    f_equal. pose proof (infer_row_count_nonneg cols_dict). lia. }
  split; [exact Hcalc|]. split; [|split; [|split; [|split; [|split; [|split]]]]].
  - clear Hcalc.
    induction cols_dict as [|kv rest IH]; intros col values Hin; [destruct Hin|].
    unfold infer_row_count in *. cbn [map fold_right].
    destruct Hin as [-> | Hin].
    + simpl. lia.
    + specialize (IH col values Hin). lia.
  - clear Hcalc. induction cols_dict as [|[col values] rest IH]; [now left|].
    unfold infer_row_count in *. cbn [map fold_right snd].
    destruct (Z.max_spec (Z.of_nat (List.length (strip_trailing_blanks values)))
                (fold_right Z.max 0
                   (map (fun kv => Z.of_nat (List.length (strip_trailing_blanks (snd kv)))) rest)))
      as [[Hlt ->] | [Hge ->]].
    + destruct IH as [H0 | [c [v [Hin Heq]]]]; [lia|].
      right. exists c, v. split; [now right | exact Heq].
    + right. exists col, values. split; [now left | reflexivity].
  - intros Hall. rewrite Hcalc. f_equal. clear Hcalc.
    induction cols_dict as [|[col values] rest IH]; [reflexivity|].
    unfold infer_row_count in *. cbn [map fold_right snd].
    rewrite (strip_all_blank values), IH; [reflexivity | |].
    + intros c v x Hin Hx. apply (Hall c v x); [now right | exact Hx].
    + apply forallb_forall. intros x Hx. apply is_blank_cell_spec.
      apply (Hall col values x); [now left | exact Hx].
  - exact is_blank_cell_spec.
  - intros values kept blanks -> Hb Hk.
    rewrite strip_blank_run
      by (intros x Hx; apply (proj2 (is_blank_cell_spec x)); exact (Hb x Hx)).
    apply strip_kept. intros x Hx. apply not_blank_text. exact (Hk x Hx).
  - intros values. destruct (strip_trailing_blanks_spec values) as [blanks [Hv [Hb Hl]]].
    exists blanks. split; [exact Hv|]. split.
    + intros x Hx. apply is_blank_cell_spec.
      rewrite forallb_forall in Hb. now apply Hb.
    + intros x Hx Hblank. rewrite Hx in Hl.
      apply is_blank_cell_spec in Hblank. congruence.
  - repeat split; reflexivity.
Qed.

(* ----------------------------------------------------------------- *)
(** ** The chunked write *)

Lemma map_seq_from {X} (n : nat) :
  forall (f : nat -> X) a,
    map f (seq a n) = map (fun i => f (a + i)%nat) (seq 0 n).
Proof.
  induction n as [|n IH]; intros f a; [reflexivity|].
  simpl. rewrite Nat.add_0_r. f_equal.
  rewrite (IH f (S a)), (IH (fun i => f (a + i)%nat) 1%nat).
  apply map_ext. intros i. f_equal. lia.
Qed.

Lemma py_range_app (lo mid hi : Z) :
  lo <= mid <= hi -> (py_range lo mid ++ py_range mid hi)%list = py_range lo hi.
Proof.
  intros H. unfold py_range.
  replace (Z.to_nat (hi - lo)) with (Z.to_nat (mid - lo) + Z.to_nat (hi - mid))%nat by lia.
  rewrite seq_app, map_app.
  rewrite (map_seq_from (Z.to_nat (hi - mid)) _ (0 + Z.to_nat (mid - lo))).
  apply (f_equal (app _)). apply map_ext. intros a. lia.
Qed.

Lemma slice_length {X} (m : list X) (i b : Z) :
  0 <= i <= Z.of_nat (List.length m) -> 0 <= b ->
  Z.of_nat (List.length (slice m i (i + b)))
  = Z.min b (Z.of_nat (List.length m) - i).
Proof.
  intros Hi Hb. unfold slice. rewrite length_firstn, length_skipn. lia.
Qed.

Lemma slice_skipn {X} (m : list X) (i b : Z) :
  0 <= i <= Z.of_nat (List.length m) -> 0 <= b ->
  (slice m i (i + b)
   ++ skipn (Z.to_nat (i + Z.of_nat (List.length (slice m i (i + b))))) m)%list
  = skipn (Z.to_nat i) m.
Proof.
  intros Hi Hb. rewrite slice_length by assumption. unfold slice.
  replace (i + b - i) with b by lia.
  transitivity (firstn (Z.to_nat b) (skipn (Z.to_nat i) m)
                ++ skipn (Z.to_nat b) (skipn (Z.to_nat i) m))%list;
    [|apply firstn_skipn].
  apply (f_equal (app _)). rewrite skipn_skipn.
  destruct (Z.le_gt_cases b (Z.of_nat (List.length m) - i)).
  - f_equal. lia.
  - rewrite !skipn_all2 by lia. reflexivity.
Qed.

Section ChunkedWriteProofs.

Variable set_matrix : nat -> result unit.
Hypothesis writes_succeed : forall k, set_matrix k = Ret tt.

Variable matrix : list (list value).

Local Abbreviation N := (Z.of_nat (List.length matrix)).

Lemma write_inv_init : write_inv matrix 0 DEST_DATA_START_ROW [].
Proof.
  constructor; try reflexivity; try lia.
  intros [|k] w H; discriminate H.
Qed.

Lemma write_inv_step (i start_row_dst : Z) (issued : list write) :
  write_inv matrix i start_row_dst issued ->
  i < N ->
  let chunk := slice matrix i (i + BATCH_ROWS) in
  let chunk_end := start_row_dst + Z.of_nat (List.length chunk) - 1 in
  write_inv matrix (i + Z.of_nat (List.length chunk)) (chunk_end + 1)
            (issued ++ [mkWrite start_row_dst chunk_end chunk]).
Proof.
  intros [Hr Hs Hc Hf He Hrows Hv] Hlt chunk chunk_end.
  assert (Hlen : Z.of_nat (List.length chunk) = Z.min BATCH_ROWS (N - i))
    by (apply slice_length; [exact Hr | discriminate]).
  specialize (Hf Hlt).
  subst chunk_end. unfold BATCH_ROWS, DEST_DATA_START_ROW, ceil_div in *.
  assert (Hchunk : chunk = slice matrix i (i + 3000)) by reflexivity.
  clearbody chunk.
  constructor; unfold BATCH_ROWS, DEST_DATA_START_ROW, ceil_div.
  - lia.
  - lia.
  - rewrite length_app. cbn [List.length].
    Z.to_euclidean_division_equations. lia.
  - intros Hlt'. rewrite length_app. cbn [List.length]. lia.
  - intros k w Hk.
    destruct (Nat.lt_ge_cases k (List.length issued)) as [Hin | Hout].
    + rewrite nth_error_app1 in Hk by exact Hin. now apply He.
    + rewrite nth_error_app2 in Hk by exact Hout.
      destruct (k - List.length issued)%nat as [|d] eqn:Ed;
        [|destruct d; discriminate Hk].
      injection Hk as <-. assert (k = List.length issued) as -> by lia.
      unfold batch_write, BATCH_ROWS, DEST_DATA_START_ROW.
      rewrite <- Hf, <- Hchunk. f_equal; lia.
  - rewrite flat_map_app, Hrows. cbn [flat_map]. rewrite app_nil_r.
    unfold rows_of. cbn [w_start w_end]. rewrite Hs.
    replace (3 + i + Z.of_nat (List.length chunk) - 1 + 1)
      with (3 + (i + Z.of_nat (List.length chunk))) by lia.
    apply py_range_app. lia.
  - rewrite map_app, concat_app. cbn [map List.concat w_values].
    rewrite app_nil_r, <- app_assoc.
    transitivity (List.concat (map w_values issued)
                  ++ skipn (Z.to_nat i) matrix)%list; [|exact Hv].
    apply (f_equal (app _)).
    rewrite Hchunk. apply slice_skipn; [exact Hr | lia].
Qed.

(** With one iteration per batch and one for the exit test, the loop ends
    normally and the invariant holds for all [N] rows. *)
Lemma write_loop_ends (fuel : nat) :
  forall i start_row_dst issued,
    write_inv matrix i start_row_dst issued ->
    N - i <= (Z.of_nat fuel - 1) * BATCH_ROWS ->
    exists ws,
      write_loop set_matrix fuel matrix N i start_row_dst issued
      = Some (Ret tt, ws)
      /\ write_inv matrix N (DEST_DATA_START_ROW + N) ws.
Proof.
  induction fuel as [|fuel IH]; intros i start issued Hinv Hfuel.
  - pose proof (inv_range _ _ _ _ Hinv). unfold BATCH_ROWS in Hfuel. lia.
  - cbn [write_loop]. destruct (Z.ltb_spec i N) as [Hlt | Hge].
    + rewrite writes_succeed. apply IH.
      * now apply write_inv_step.
      * pose proof (inv_range _ _ _ _ Hinv) as Hr.
        rewrite slice_length by (exact Hr || discriminate).
        fold N. unfold BATCH_ROWS in *. lia.
    + exists issued. split; [reflexivity|].
      pose proof (inv_range _ _ _ _ Hinv) as Hr.
      assert (i = N) as Hi by lia. rewrite <- Hi.
      rewrite <- (inv_start _ _ _ _ Hinv). exact Hinv.
Qed.

End ChunkedWriteProofs.

(** [treated_matrix] has one row per data row: this is the link between
    [num_rows_data] and the matrix that the write loop relies on. *)
Lemma treat_rows_length (data_cols : dict (list value)) (rs : list nat) :
  forall m, treat_rows data_cols rs = Ret m -> List.length m = List.length rs.
Proof.
  induction rs as [|r rs IH]; intros m H; cbn [treat_rows] in H.
  - now injection H as <-.
  - destruct (treat_row MAPPINGS data_cols r); [|discriminate H].
    destruct (treat_rows data_cols rs) as [m'|]; [|discriminate H].
    injection H as <-. cbn [List.length]. now rewrite (IH m' eq_refl).
Qed.

Lemma treated_matrix_length (data_cols : dict (list value)) (num_rows_data : Z) :
  forall m,
    0 <= num_rows_data ->
    treated_matrix data_cols num_rows_data = Ret m ->
    num_rows_data = Z.of_nat (List.length m).
Proof.
  intros m Hn H. apply treat_rows_length in H.
  rewrite H, length_seq. lia.
Qed.

Lemma list_by_index {X} (f : nat -> X) (l : list X) :
  forall a,
    (forall k w, nth_error l k = Some w -> w = f (a + k)%nat) ->
    l = map f (seq a (List.length l)).
Proof.
  induction l as [|x l IH]; intros a H; [reflexivity|].
  cbn [List.length seq map]. f_equal.
  - rewrite (H 0%nat x eq_refl). f_equal. lia.
  - apply IH. intros k w Hk.
    rewrite (H (S k) w Hk). f_equal. lia.
Qed.

(** C5. When no write fails, the loop over a matrix of [N] rows issues
    ceil(N / 3000) writes; the [k]-th one covers rows [3 + 3000 k] to
    [3 + 3000 k + 2999], or to row [N + 2] for the last; put end to end, in
    the order issued, the rows covered are 3, 4, ..., [N + 2], each once, and
    the values written are the rows of the matrix in order. For [N] = 7000
    the writes cover 3..3002, 3003..6002 and 6003..7002. *)
Theorem chunked_write_partition
        (set_matrix : nat -> result unit) (matrix : list (list value))
        (num_rows_data : Z) (fuel : nat) :
  (forall k, set_matrix k = Ret tt) ->
  num_rows_data = Z.of_nat (List.length matrix) ->
  ceil_div num_rows_data BATCH_ROWS < Z.of_nat fuel ->
  exists ws,
    write_data set_matrix fuel matrix num_rows_data = Some (Ret tt, ws)
    /\ Z.of_nat (List.length ws) = ceil_div num_rows_data BATCH_ROWS
    /\ ws = map (batch_write matrix) (seq 0 (List.length ws))
    /\ flat_map rows_of ws
       = py_range DEST_DATA_START_ROW (DEST_DATA_START_ROW + num_rows_data)
    /\ List.concat (map w_values ws) = matrix
    /\ (num_rows_data = 7000 ->
        map (fun w => (w_start w, w_end w)) ws
        = [(3, 3002); (3003, 6002); (6003, 7002)]).
Proof.
  intros Hok HN Hfuel.
  assert (Hloop : exists ws,
             write_data set_matrix fuel matrix num_rows_data = Some (Ret tt, ws)
             /\ write_inv matrix num_rows_data
                          (DEST_DATA_START_ROW + num_rows_data) ws).
  { subst num_rows_data. unfold write_data. destruct matrix as [|row rest].
    - exists []. split; [reflexivity | apply write_inv_init].
    - apply (write_loop_ends set_matrix Hok (row :: rest));
        [apply write_inv_init|].
      unfold ceil_div, BATCH_ROWS in *.
      Z.to_euclidean_division_equations. lia. }
  destruct Hloop as [ws [Hrun Hinv]]. exists ws.
  destruct Hinv as [Hr _ Hc _ He Hrows Hv].
  assert (Hws : ws = map (batch_write matrix) (seq 0 (List.length ws)))
    by (apply list_by_index; exact He).
  repeat split; try assumption.
  - rewrite HN, Nat2Z.id, skipn_all, app_nil_r in Hv. exact Hv.
  - intros H7. rewrite H7 in Hc.
    assert (List.length ws = 3%nat) as Hlen.
    { change (ceil_div 7000 BATCH_ROWS) with 3 in Hc. lia. }
    rewrite Hws, Hlen. cbn [seq map]. unfold batch_write.
    rewrite <- HN, H7. reflexivity.
Qed.

(** A run of 7000 rows. *)
Lemma chunked_write_partition_witness :
  let set_matrix := fun _ : nat => Ret tt in
  let matrix := repeat [VInt 1] (Z.to_nat 7000) in
  (forall k, set_matrix k = Ret tt)
  /\ 7000 = Z.of_nat (List.length matrix)
  /\ ceil_div 7000 BATCH_ROWS < Z.of_nat 4
  /\ exists ws,
      write_data set_matrix 4 matrix 7000 = Some (Ret tt, ws)
      /\ Z.of_nat (List.length ws) = ceil_div 7000 BATCH_ROWS
      /\ ws = map (batch_write matrix) (seq 0 (List.length ws))
      /\ flat_map rows_of ws
         = py_range DEST_DATA_START_ROW (DEST_DATA_START_ROW + 7000)
      /\ List.concat (map w_values ws) = matrix
      /\ (7000 = 7000 ->
          map (fun w => (w_start w, w_end w)) ws
          = [(3, 3002); (3003, 6002); (6003, 7002)]).
Proof.
  intros set_matrix matrix.
  assert (H1 : forall k, set_matrix k = Ret tt) by reflexivity.
  assert (H2 : 7000 = Z.of_nat (List.length matrix))
    by (unfold matrix; rewrite repeat_length; reflexivity).
  assert (H3 : ceil_div 7000 BATCH_ROWS < Z.of_nat 4) by reflexivity.
  split; [exact H1|]. split; [exact H2|]. split; [exact H3|].
  exact (chunked_write_partition set_matrix matrix 7000 4 H1 H2 H3).
Defined.

(* ----------------------------------------------------------------- *)
(** ** The retry loop *)

Section RetryProofs.

Context {A : Type}.
Variable call : nat -> result A.
Variable rand : nat -> Q.
Variable max_tries : Z.
Variables base cap : Q.

Local Abbreviation loop := (with_retry_loop call rand).

(** One iteration that ends the loop: the call returns. *)
Lemma loop_returns fuel a w x :
  call (calls w) = Ret x ->
  loop (S fuel) max_tries base cap a w
  = Some (Ret x, mkWorld (S (calls w)) (draws w) (slept w)).
Proof. intros H. cbn [with_retry_loop invoke]. now rewrite H. Qed.

(** One iteration on a retryable API error within the budget: a sleep of
    the capped exponential delay plus the jitter, then the next try. *)
Lemma loop_backoff fuel a w text :
  call (calls w) = Raise (APIError text) ->
  is_retryable_api_error (APIError text) = true ->
  a < max_tries ->
  loop (S fuel) max_tries base cap a w
  = loop fuel max_tries base cap (a + 1)
         (mkWorld (S (calls w)) (S (draws w))
                  (slept w ++ [retry_delay base cap a (rand (draws w))])).
Proof.
  intros Hc Hr Ha. cbn [with_retry_loop invoke]. rewrite Hc.
  cbn [is_api_error]. rewrite Hr.
  destruct (Z.leb_spec max_tries a); [lia|]. reflexivity.
Qed.

(** One iteration on an API error that is not retryable, or that comes
    when the budget is used up: the same error goes up, without a sleep. *)
Lemma loop_api_raises fuel a w e :
  call (calls w) = Raise e ->
  is_api_error e = true ->
  is_retryable_api_error e = false \/ max_tries <= a ->
  loop (S fuel) max_tries base cap a w
  = Some (Raise e, mkWorld (S (calls w)) (draws w) (slept w)).
Proof.
  intros Hc He H. cbn [with_retry_loop invoke]. rewrite Hc, He.
  destruct H as [-> | H]; [reflexivity|].
  destruct (Z.leb_spec max_tries a); [|lia]. now rewrite orb_true_r.
Qed.

(** One iteration on an unexpected exception within the small budget. *)
Lemma loop_light_retry fuel a w e :
  call (calls w) = Raise e ->
  is_api_error e = false ->
  a < Z.min 3 max_tries ->
  loop (S fuel) max_tries base cap a w
  = loop fuel max_tries base cap (a + 1)
         (mkWorld (S (calls w)) (S (draws w))
                  (slept w ++ [(1 + (0 + ((1 # 2) - 0) * rand (draws w)))%Q])).
Proof.
  intros Hc He Ha. cbn [with_retry_loop invoke]. rewrite Hc, He.
  destruct (Z.leb_spec (Z.min 3 max_tries) a); [lia|]. reflexivity.
Qed.

(** One iteration on an unexpected exception once the counter has reached
    [min(3, max_tries)]: it goes up, without a sleep. *)
Lemma loop_unexpected_raises fuel a w e :
  call (calls w) = Raise e ->
  is_api_error e = false ->
  Z.min 3 max_tries <= a ->
  loop (S fuel) max_tries base cap a w
  = Some (Raise e, mkWorld (S (calls w)) (draws w) (slept w)).
Proof.
  intros Hc He Ha. cbn [with_retry_loop invoke]. rewrite Hc, He.
  destruct (Z.leb_spec (Z.min 3 max_tries) a); [reflexivity | lia].
Qed.

(** The five cases of one iteration. *)
Lemma loop_cases a w :
  (exists x, call (calls w) = Ret x)
  \/ (exists text, call (calls w) = Raise (APIError text)
                   /\ is_retryable_api_error (APIError text) = true
                   /\ a < max_tries)
  \/ (exists e, call (calls w) = Raise e /\ is_api_error e = true
                /\ (is_retryable_api_error e = false \/ max_tries <= a))
  \/ (exists e, call (calls w) = Raise e /\ is_api_error e = false
                /\ a < Z.min 3 max_tries)
  \/ (exists e, call (calls w) = Raise e /\ is_api_error e = false
                /\ Z.min 3 max_tries <= a).
Proof.
  destruct (call (calls w)) as [x | e]; [left; now exists x | right].
  destruct (is_api_error e) eqn:He.
  - destruct e as [text| | |]; try discriminate He.
    destruct (is_retryable_api_error (APIError text)) eqn:Hr;
      [destruct (Z.lt_ge_cases a max_tries)|].
    + left. now exists text.
    + right; left. exists (APIError text). auto.
    + right; left. exists (APIError text). auto.
  - right; right. destruct (Z.lt_ge_cases a (Z.min 3 max_tries)).
    + left. now exists e.
    + right. now exists e.
Qed.




End RetryProofs.

Lemma retry_delay_bounds (base cap : Q) (a : Z) (u : Q) :
  (0 <= u <= 1)%Q ->
  (backoff base cap a <= retry_delay base cap a u
   <= backoff base cap a + (1 # 2))%Q.
Proof.
  intros Hu. unfold retry_delay. set (b := backoff base cap a). lra.
Qed.





(* ----------------------------------------------------------------- *)
(** ** The run-level restart loop *)

Section MainProofs.

Variable run_once : nat -> result unit.
Variable rand : nat -> Q.

Local Abbreviation mloop := (main_loop run_once rand).

Lemma main_step_done a rest w u :
  run_once (calls w) = Ret u ->
  mloop (a :: rest) w = (Ret tt, mkWorld (S (calls w)) (draws w) (slept w)).
Proof. intros H. cbn [main_loop invoke]. now rewrite H. Qed.

(** A failed run that is restarted: a retryable API error or an exception
    that is not an API error, before the last attempt. *)
Lemma main_step_restart a rest w e :
  run_once (calls w) = Raise e ->
  (is_api_error e = true -> is_retryable_api_error e = true) ->
  a < MAX_RUN_TRIES ->
  mloop (a :: rest) w
  = mloop rest (mkWorld (S (calls w)) (S (draws w))
                        (slept w ++ [restart_delay a e (rand (draws w))])).
Proof.
  intros Hc Hr Ha. cbn [main_loop invoke]. rewrite Hc.
  unfold restart_delay. destruct (Z.ltb_spec a MAX_RUN_TRIES); [|lia].
  destruct (is_api_error e); [rewrite Hr by reflexivity|]; reflexivity.
Qed.

(** A failed run that is fatal: an API error that is not retryable, at any
    attempt, or any failure of the last attempt. *)
Lemma main_step_fatal a rest w e :
  run_once (calls w) = Raise e ->
  (is_api_error e = true /\ is_retryable_api_error e = false)
  \/ MAX_RUN_TRIES <= a ->
  mloop (a :: rest) w = (Raise e, mkWorld (S (calls w)) (draws w) (slept w)).
Proof.
  intros Hc H. cbn [main_loop invoke]. rewrite Hc.
  destruct H as [[Ha Hr] | Ha].
  - now rewrite Ha, Hr.
  - destruct (Z.ltb_spec a MAX_RUN_TRIES); [lia|].
    rewrite andb_false_r. now destruct (is_api_error e).
Qed.

Lemma main_cases a w :
  (exists u, run_once (calls w) = Ret u)
  \/ (exists e, run_once (calls w) = Raise e
                /\ is_api_error e = true
                /\ is_retryable_api_error e = false)
  \/ (exists e, run_once (calls w) = Raise e
                /\ (is_api_error e = true -> is_retryable_api_error e = true)
                /\ a < MAX_RUN_TRIES)
  \/ (exists e, run_once (calls w) = Raise e
                /\ (is_api_error e = true -> is_retryable_api_error e = true)
                /\ MAX_RUN_TRIES <= a).
Proof.
  destruct (run_once (calls w)) as [u | e]; [left; now exists u | right].
  destruct (is_api_error e) eqn:Ha, (is_retryable_api_error e) eqn:Hr;
    try (left; exists e; now auto); right;
    (destruct (Z.lt_ge_cases a MAX_RUN_TRIES); [left | right]);
    exists e; (split; [reflexivity|]); (split; [|assumption]);
    intros; congruence.
Qed.

End MainProofs.

Lemma restart_delay_bounds (attempt : Z) (e : exn) (u : Q) :
  (0 <= u <= 1)%Q ->
  if is_api_error e
  then (5 * inject_Z attempt <= restart_delay attempt e u
        <= 5 * inject_Z attempt + (3 # 2))%Q
  else (3 <= restart_delay attempt e u <= 4)%Q.
Proof.
  intros Hu. unfold restart_delay.
  destruct (is_api_error e); [set (b := inject_Z attempt)|]; lra.
Qed.

(** The three shapes of an execution of [main]: one, two or three runs. *)
Lemma main_outcomes (run_once : nat -> result unit) (rand : nat -> Q) :
  (final_run (run_once 0%nat)
   /\ main run_once rand = (run_outcome (run_once 0%nat), mkWorld 1 0 []))
  \/ (exists e1,
         run_once 0%nat = Raise e1
         /\ (is_api_error e1 = true -> is_retryable_api_error e1 = true)
         /\ final_run (run_once 1%nat)
         /\ main run_once rand
            = (run_outcome (run_once 1%nat),
               mkWorld 2 1 [restart_delay 1 e1 (rand 0%nat)]))
  \/ (exists e1 e2,
         run_once 0%nat = Raise e1
         /\ (is_api_error e1 = true -> is_retryable_api_error e1 = true)
         /\ run_once 1%nat = Raise e2
         /\ (is_api_error e2 = true -> is_retryable_api_error e2 = true)
         /\ main run_once rand
            = (run_outcome (run_once 2%nat),
               mkWorld 3 2 [restart_delay 1 e1 (rand 0%nat);
                            restart_delay 2 e2 (rand 1%nat)])).
Proof.
  unfold main. change (py_range 1 (MAX_RUN_TRIES + 1)) with [1; 2; 3].
  destruct (main_cases run_once 1 world0)
    as [[u1 H1] | [[e1 [H1 [Ha1 Hr1]]] | [[e1 [H1 [Hr1 Hlt1]]] | [e1 [H1 [_ Hge1]]]]]].
  - left. rewrite (main_step_done run_once rand 1 _ world0 u1 H1).
    cbn [calls world0] in H1. rewrite H1. now split.
  - left. rewrite (main_step_fatal run_once rand 1 _ world0 e1 H1) by auto.
    cbn [calls world0] in H1. rewrite H1. now split.
  - right. rewrite (main_step_restart run_once rand 1 _ world0 e1 H1 Hr1 Hlt1).
    cbn [calls draws slept world0 app] in *.
    set (w1 := mkWorld 1 1 _).
    destruct (main_cases run_once 2 w1)
      as [[u2 H2] | [[e2 [H2 [Ha2 Hr2]]] | [[e2 [H2 [Hr2 Hlt2]]] | [e2 [H2 [_ Hge2]]]]]].
    + left. exists e1. rewrite (main_step_done run_once rand 2 _ w1 u2 H2).
      cbn [calls w1] in H2. rewrite H2. now repeat split.
    + left. exists e1. rewrite (main_step_fatal run_once rand 2 _ w1 e2 H2) by auto.
      cbn [calls w1] in H2. rewrite H2. now repeat split.
    + right. exists e1, e2.
      rewrite (main_step_restart run_once rand 2 _ w1 e2 H2 Hr2 Hlt2).
      cbn [calls draws slept w1 app] in *.
      set (w2 := mkWorld 2 2 _).
      repeat (split; [assumption|]).
      destruct (run_once 2%nat) as [u3 | e3] eqn:H3.
      * now rewrite (main_step_done run_once rand 3 [] w2 u3 H3).
      * rewrite (main_step_fatal run_once rand 3 [] w2 e3 H3); [reflexivity|].
        right. unfold MAX_RUN_TRIES. lia.
    + exfalso. unfold MAX_RUN_TRIES in Hge2. lia.
  - exfalso. unfold MAX_RUN_TRIES in Hge1. lia.
Qed.

(** C3, as stated: a run that fails with an API error that is not
    retryable is fatal at the first attempt, with no restart. *)
Lemma non_retryable_run_is_fatal_at_once : ~ fatal_only_when_exhausted.
Proof.
  intros H.
  specialize (H (fun _ => Raise (APIError "APIError: [403]: forbidden"))
                (fun _ => 0%Q)
                (APIError "APIError: [403]: forbidden") (mkWorld 1 0 [])
                eq_refl).
  discriminate H.
Qed.

(** C3, amended. [main] makes between one and three runs. A run that fails
    with a retryable API error, or with an exception that is not an API
    error, is followed by a restart when it is not the third: after a sleep
    of 5 * attempt plus a jitter in [0, 1.5] for the API error, of 3 plus a
    jitter in [0, 1] otherwise. A run that fails with an API error that is
    not retryable is fatal at once, at any attempt. [main] ends with the
    outcome of its last run: when it raises, it raises the error of that
    run, and either three runs were made or the error is an API error that
    is not retryable. *)
Theorem main_restart_policy (run_once : nat -> result unit) (rand : nat -> Q) :
  let r := fst (main run_once rand) in
  let w := snd (main run_once rand) in
  (1 <= calls w <= 3)%nat
  /\ draws w = pred (calls w)
  /\ List.length (slept w) = pred (calls w)
  /\ (forall k,
         (S k < calls w)%nat ->
         exists e,
           run_once k = Raise e
           /\ (is_api_error e = true -> is_retryable_api_error e = true)
           /\ nth_error (slept w) k
              = Some (restart_delay (Z.of_nat k + 1) e (rand k)))
  /\ match r with
     | Ret _ => exists u, run_once (pred (calls w)) = Ret u
     | Raise e =>
         run_once (pred (calls w)) = Raise e
         /\ (Z.of_nat (calls w) = MAX_RUN_TRIES
             \/ (is_api_error e = true /\ is_retryable_api_error e = false))
     end
  /\ (forall e,
         run_once 0%nat = Raise e ->
         is_api_error e = true ->
         is_retryable_api_error e = false ->
         main run_once rand = (Raise e, mkWorld 1 0 []))
  /\ (forall attempt e u,
         (0 <= u <= 1)%Q ->
         if is_api_error e
         then (5 * inject_Z attempt <= restart_delay attempt e u
               <= 5 * inject_Z attempt + (3 # 2))%Q
         else (3 <= restart_delay attempt e u <= 4)%Q).
Proof.
  cbv zeta.
  destruct (main_outcomes run_once rand)
    as [[Hs Hm] | [[e1 [H0 [Hr1 [Hs Hm]]]] | [e1 [e2 [H0 [Hr1 [H1 [Hr2 Hm]]]]]]]];
    rewrite Hm; cbn [fst snd calls draws slept pred List.length];
    repeat (match goal with |- _ /\ _ => split end);
    try lia; try reflexivity; try exact restart_delay_bounds.
  - destruct (run_once 0%nat) as [u | e];
      [now exists u | split; [reflexivity | right; exact Hs]].
  - intros e He Ha Hr. now rewrite He.
  - intros k Hk. destruct k as [|k]; [|lia]. exists e1. now repeat split.
  - destruct (run_once 1%nat) as [u | e];
      [now exists u | split; [reflexivity | right; exact Hs]].
  - intros e He Ha Hr. rewrite H0 in He. injection He as <-.
    rewrite (Hr1 Ha) in Hr. discriminate Hr.
  - intros k Hk. destruct k as [|[|k]]; [exists e1 | exists e2 | lia];
      now repeat split.
  - destruct (run_once 2%nat) as [u | e];
      [now exists u | split; [reflexivity | now left]].
  - intros e He Ha Hr. rewrite H0 in He. injection He as <-.
    rewrite (Hr1 Ha) in Hr. discriminate Hr.
Qed.

(* ================================================================= *)
(** * Further properties of the program *)

(* ----------------------------------------------------------------- *)
(** ** Column letters and column numbers *)

Lemma col_index_from_app (out : Z) (a b : list Z) :
  col_index_from out (a ++ b) = col_index_from (col_index_from out a) b.
Proof. unfold col_index_from. apply fold_left_app. Qed.

Lemma code_chr (n : Z) : 0 <= n < 256 -> Str.code (chr n) = n.
Proof.
  intros Hn. unfold Str.code, chr. rewrite N_ascii_embedding; lia.
Qed.

Lemma upper_code_points_capital (c : ascii) :
  is_capital c = true -> upper_code_points c = [Str.code c].
Proof.
  unfold is_capital, upper_code_points. intros H.
  apply andb_true_iff in H as [H1 H2].
  repeat match goal with
         | |- context [if ?b then _ else _] =>
             let E := fresh in destruct b eqn:E; try lia
         end; reflexivity.
Qed.

Lemma list_ascii_of_string_app (a b : string) :
  list_ascii_of_string (a ++ b)
  = (list_ascii_of_string a ++ list_ascii_of_string b)%list.
Proof. induction a as [|c a IH]; [reflexivity|]. simpl. now rewrite IH. Qed.

Lemma col_letter_to_index_snoc (s : string) (c : ascii) :
  is_capital c = true ->
  col_letter_to_index (s ++ String c "")
  = col_letter_to_index s * 26 + (Str.code c - 65 + 1).
Proof.
  intros Hc. unfold col_letter_to_index.
  rewrite list_ascii_of_string_app, flat_map_app, col_index_from_app.
  cbn [list_ascii_of_string flat_map]. rewrite app_nil_r.
  now rewrite (upper_code_points_capital c Hc).
Qed.

Lemma string_app_assoc (a b c : string) : (a ++ b) ++ c = a ++ (b ++ c).
Proof. induction a as [|x a IH]; [reflexivity|]. simpl. now rewrite IH. Qed.

(** What the loop has prepended when it ends spells the number it began
    with. *)
Lemma index_to_col_letter_loop_spells (fuel : nat) :
  forall n acc res,
    0 <= n ->
    index_to_col_letter_loop fuel n acc = Some res ->
    exists s,
      res = s ++ acc
      /\ Str.forallb is_capital s = true
      /\ col_letter_to_index s = n.
Proof.
  induction fuel as [|fuel IH]; intros n acc res Hn H; [discriminate H|].
  cbn [index_to_col_letter_loop] in H.
  destruct (Z.eqb_spec n 0) as [-> | Hne].
  - injection H as <-. now exists "".
  - apply IH in H; [|Z.to_euclidean_division_equations; lia].
    destruct H as [s [-> [Hcap Hidx]]].
    assert (Hr : 0 <= (n - 1) mod 26 < 26) by (apply Z.mod_pos_bound; lia).
    assert (Hc : is_capital (chr ((n - 1) mod 26 + 65)) = true).
    { unfold is_capital. rewrite code_chr by lia. lia. }
    exists (s ++ String (chr ((n - 1) mod 26 + 65)) "").
    split; [now rewrite string_app_assoc|]. split.
    + rewrite forallb_append, Hcap. simpl. now rewrite Hc.
    + rewrite (col_letter_to_index_snoc _ _ Hc), Hidx, code_chr by lia.
      Z.to_euclidean_division_equations. lia.
Qed.

Lemma index_to_col_letter_loop_ends (fuel : nat) :
  forall n acc,
    0 <= n -> (Z.to_nat n < fuel)%nat ->
    exists res, index_to_col_letter_loop fuel n acc = Some res.
Proof.
  induction fuel as [|fuel IH]; intros n acc Hn Hf; [lia|].
  cbn [index_to_col_letter_loop].
  destruct (Z.eqb_spec n 0) as [-> | Hne]; [now eexists|].
  apply IH; Z.to_euclidean_division_equations; lia.
Qed.

(** X1. For a column number [n >= 0], [index_to_col_letter] ends, gives
    capital letters only, and [col_letter_to_index] maps them back to [n]. *)
Theorem index_to_col_letter_round_trip (n : Z) (fuel : nat) :
  0 <= n ->
  (Z.to_nat n < fuel)%nat ->
  exists s,
    index_to_col_letter fuel n = Some s
    /\ Str.forallb is_capital s = true
    /\ col_letter_to_index s = n.
Proof.
  intros Hn Hf. unfold index_to_col_letter.
  destruct (index_to_col_letter_loop_ends fuel n "" Hn Hf) as [res H].
  destruct (index_to_col_letter_loop_spells fuel n "" res Hn H)
    as [s [-> [Hcap Hidx]]].
  exists s. split; [|now split].
  rewrite H. f_equal. clear. induction s as [|c s IH]; [reflexivity|].
  simpl. now rewrite IH.
Qed.

(** Column 24 is X, column 703 is AAA. *)
Lemma index_to_col_letter_round_trip_witness :
  0 <= 703
  /\ (Z.to_nat 703 < 704)%nat
  /\ exists s,
      index_to_col_letter 704 703 = Some s
      /\ Str.forallb is_capital s = true
      /\ col_letter_to_index s = 703.
Proof.
  assert (H1 : 0 <= 703) by lia.
  assert (H2 : (Z.to_nat 703 < 704)%nat) by lia.
  split; [exact H1|]. split; [exact H2|].
  exact (index_to_col_letter_round_trip 703 704 H1 H2).
Defined.

Lemma col_index_from_nonneg (codes : string) :
  forall q,
    Str.forallb is_capital codes = true -> 0 <= q ->
    0 <= col_index_from q
           (flat_map upper_code_points (list_ascii_of_string codes)).
Proof.
  induction codes as [|c t IH]; intros q Hcap Hq; [exact Hq|].
  simpl in Hcap. apply andb_true_iff in Hcap as [Hc Ht].
  cbn [list_ascii_of_string flat_map].
  rewrite (upper_code_points_capital c Hc), col_index_from_app.
  apply IH; [exact Ht|]. unfold col_index_from, is_capital in *. simpl. lia.
Qed.

(** The loop undoes the fold of [col_letter_to_index], one letter per
    iteration, the last letter first. *)
Lemma index_to_col_letter_loop_undoes (s : string) :
  forall q acc fuel,
    Str.forallb is_capital s = true ->
    0 <= q ->
    (String.length s <= fuel)%nat ->
    index_to_col_letter_loop fuel
      (col_index_from q (flat_map upper_code_points (list_ascii_of_string s)))
      acc
    = index_to_col_letter_loop (fuel - String.length s) q (s ++ acc).
Proof.
  induction s as [|c t IH]; intros q acc fuel Hcap Hq Hf.
  - simpl. now rewrite Nat.sub_0_r.
  - simpl in Hcap. apply andb_true_iff in Hcap as [Hc Ht].
    cbn [list_ascii_of_string flat_map String.length] in *.
    rewrite (upper_code_points_capital c Hc), col_index_from_app.
    change (col_index_from q [Str.code c]) with (q * 26 + (Str.code c - 65 + 1)).
    rewrite IH by (try assumption; unfold is_capital in Hc; lia).
    replace (fuel - String.length t)%nat with (S (fuel - S (String.length t))) by lia.
    cbn [index_to_col_letter_loop].
    assert (Hv : 65 <= Str.code c <= 90) by (unfold is_capital in Hc; lia).
    destruct (Z.eqb_spec (q * 26 + (Str.code c - 65 + 1)) 0) as [H0 | _]; [lia|].
    replace ((q * 26 + (Str.code c - 65 + 1) - 1) mod 26) with (Str.code c - 65)
      by (Z.to_euclidean_division_equations; lia).
    replace ((q * 26 + (Str.code c - 65 + 1) - 1) / 26) with q
      by (Z.to_euclidean_division_equations; lia).
    replace (Str.code c - 65 + 65) with (Str.code c) by lia.
    unfold chr, Str.code. rewrite N2Z.id, ascii_N_embedding. reflexivity.
Qed.

(** X2. For a column name [s] made of capital letters,
    [index_to_col_letter(col_letter_to_index(s))] is [s]. *)
Theorem col_letter_to_index_round_trip (s : string) (fuel : nat) :
  Str.forallb is_capital s = true ->
  (String.length s < fuel)%nat ->
  index_to_col_letter fuel (col_letter_to_index s) = Some s.
Proof.
  intros Hcap Hf. unfold index_to_col_letter, col_letter_to_index.
  rewrite index_to_col_letter_loop_undoes by (try assumption; lia).
  destruct (fuel - String.length s)%nat as [|f] eqn:E; [lia|].
  cbn [index_to_col_letter_loop]. simpl. f_equal.
  clear. induction s as [|c s IH]; [reflexivity|]. simpl. now rewrite IH.
Qed.

(** The source column AC, the 29th. *)
Lemma col_letter_to_index_round_trip_witness :
  Str.forallb is_capital "AC" = true
  /\ (String.length "AC" < 3)%nat
  /\ index_to_col_letter 3 (col_letter_to_index "AC") = Some "AC"
  /\ col_letter_to_index "AC" = 29.
Proof.
  assert (H1 : Str.forallb is_capital "AC" = true) by reflexivity.
  assert (H2 : (String.length "AC" < 3)%nat) by (simpl; lia).
  split; [exact H1|]. split; [exact H2|].
  split; [exact (col_letter_to_index_round_trip "AC" 3 H1 H2) | reflexivity].
Defined.

(** X3. On a negative number the loop of [index_to_col_letter] never ends:
    the quotient by 26 of a negative number, rounded down, stays negative. *)
Theorem index_to_col_letter_negative_diverges (n : Z) (fuel : nat) :
  n < 0 -> index_to_col_letter fuel n = None.
Proof.
  unfold index_to_col_letter. generalize "". revert n.
  induction fuel as [|fuel IH]; intros n acc Hn; [reflexivity|].
  cbn [index_to_col_letter_loop].
  destruct (Z.eqb_spec n 0) as [-> | _]; [lia|].
  apply IH. Z.to_euclidean_division_equations. lia.
Qed.

Lemma index_to_col_letter_negative_diverges_witness :
  -1 < 0 /\ index_to_col_letter 1000 (-1) = None.
Proof.
  assert (H : -1 < 0) by lia.
  split; [exact H | exact (index_to_col_letter_negative_diverges (-1) 1000 H)].
Defined.

(* ----------------------------------------------------------------- *)
(** ** More on the retry loop *)

Section RetryMore.

Context {A : Type}.
Variable call : nat -> result A.
Variable rand : nat -> Q.
Variable max_tries : Z.
Variables base cap : Q.

Local Abbreviation rloop := (with_retry_loop call rand).



(** When no call raises an API error, the small budget is the only one. *)
Lemma loop_calls_bound_unexpected fuel :
  (forall j e, call j = Raise e -> is_api_error e = false) ->
  forall a w r w',
    rloop fuel max_tries base cap a w = Some (r, w') ->
    Z.of_nat (calls w') <= Z.of_nat (calls w)
                           + Z.max 1 (Z.min 3 max_tries - a + 1).
Proof.
  intros Hno.
  induction fuel as [|fuel IH]; intros a w r w' H; [discriminate H|].
  destruct (loop_cases call max_tries a w)
    as [[x Hc] | [[t [Hc [Hr Ha]]] | [[e [Hc [He Hn]]] | [[e [Hc [He Ha]]] | [e [Hc [He Ha]]]]]]].
  - rewrite (loop_returns _ _ _ _ _ _ _ _ _ Hc) in H. injection H as _ <-. simpl. lia.
  - apply Hno in Hc. discriminate Hc.
  - apply Hno in Hc. congruence.
  - rewrite (loop_light_retry _ _ _ _ _ _ _ _ _ Hc He Ha) in H.
    apply IH in H. cbn [calls] in H. lia.
  - rewrite (loop_unexpected_raises _ _ _ _ _ _ _ _ _ Hc He Ha) in H.
    injection H as _ <-. simpl. lia.
Qed.

(** Every sleep is a backoff delay or a light delay. *)
Lemma loop_sleeps (P : Q -> Prop) fuel :
  (forall a k, 1 <= a -> P (retry_delay base cap a (rand k))) ->
  (forall k, P (1 + (0 + ((1 # 2) - 0) * rand k))%Q) ->
  forall a w r w',
    1 <= a ->
    Forall P (slept w) ->
    rloop fuel max_tries base cap a w = Some (r, w') ->
    Forall P (slept w').
Proof.
  intros Hback Hlight.
  induction fuel as [|fuel IH]; intros a w r w' Ha Hw H; [discriminate H|].
  destruct (loop_cases call max_tries a w)
    as [[x Hc] | [[t [Hc [Hr Hlt]]] | [[e [Hc [He Hn]]] | [[e [Hc [He Hlt]]] | [e [Hc [He Hge]]]]]]].
  - rewrite (loop_returns _ _ _ _ _ _ _ _ _ Hc) in H. now injection H as _ <-.
  - rewrite (loop_backoff _ _ _ _ _ _ _ _ _ Hc Hr Hlt) in H.
    apply IH in H; [exact H | lia |]. cbn [slept].
    apply Forall_app. split; [exact Hw | constructor; [now apply Hback | constructor]].
  - rewrite (loop_api_raises _ _ _ _ _ _ _ _ _ Hc He Hn) in H. now injection H as _ <-.
  - rewrite (loop_light_retry _ _ _ _ _ _ _ _ _ Hc He Hlt) in H.
    apply IH in H; [exact H | lia |]. cbn [slept].
    apply Forall_app. split; [exact Hw | constructor; [apply Hlight | constructor]].
  - rewrite (loop_unexpected_raises _ _ _ _ _ _ _ _ _ Hc He Hge) in H.
    now injection H as _ <-.
Qed.

End RetryMore.







(** X7. When the wrapped call never raises an API error, [with_retry] makes
    at most max(1, min(3, max_tries)) calls, whatever [max_tries] is: three
    with the default budget. *)
Theorem with_retry_unexpected_budget
        (A : Type) (call : nat -> result A) (rand : nat -> Q)
        (fuel : nat) (max_tries : Z) (base cap : Q)
        (r : result A) (w : world) :
  (forall j e, call j = Raise e -> is_api_error e = false) ->
  with_retry call rand fuel max_tries base cap = Some (r, w) ->
  Z.of_nat (calls w) <= Z.max 1 (Z.min 3 max_tries)
  /\ Z.of_nat (calls w) <= 3.
Proof.
  intros Hno H. apply (loop_calls_bound_unexpected _ _ _ _ _ _ Hno) in H.
  cbn [calls world0] in H. lia.
Qed.

Lemma with_retry_unexpected_budget_witness :
  let call := fun _ : nat => @Raise unit (OtherError "connection reset") in
  let rand := fun _ : nat => 0%Q in
  let w := mkWorld 3 2 [(1 + (0 + ((1 # 2) - 0) * 0))%Q;
                        (1 + (0 + ((1 # 2) - 0) * 0))%Q] in
  (forall j e, call j = Raise e -> is_api_error e = false)
  /\ with_retry call rand 20 DEFAULT_MAX_TRIES DEFAULT_BASE DEFAULT_CAP
     = Some (Raise (OtherError "connection reset"), w)
  /\ Z.of_nat (calls w) <= Z.max 1 (Z.min 3 DEFAULT_MAX_TRIES)
  /\ Z.of_nat (calls w) <= 3.
Proof.
  intros call rand w.
  assert (H1 : forall j e, call j = Raise e -> is_api_error e = false)
    by (intros j e [= <-]; reflexivity).
  assert (H2 : with_retry call rand 20 DEFAULT_MAX_TRIES DEFAULT_BASE DEFAULT_CAP
               = Some (Raise (OtherError "connection reset"), w))
    by reflexivity.
  split; [exact H1|]. split; [exact H2|].
  exact (with_retry_unexpected_budget unit call rand 20 DEFAULT_MAX_TRIES
           DEFAULT_BASE DEFAULT_CAP _ w H1 H2).
Defined.

(** X8. With [base >= 0], [cap >= 0] and random values in [0, 1], every
    sleep of [with_retry] lasts between 0 and max(cap, 1) + 0.5: the delay
    given to [time.sleep] is never negative. *)
Theorem with_retry_sleeps_bounded
        (A : Type) (call : nat -> result A) (rand : nat -> Q)
        (fuel : nat) (max_tries : Z) (base cap : Q)
        (r : result A) (w : world) :
  (0 <= base)%Q -> (0 <= cap)%Q ->
  (forall k, 0 <= rand k <= 1)%Q ->
  with_retry call rand fuel max_tries base cap = Some (r, w) ->
  Forall (fun d => 0 <= d <= Qmax cap 1 + (1 # 2))%Q (slept w).
Proof.
  intros Hb Hc Hrand H.
  apply (loop_sleeps call rand max_tries base cap
           (fun d => 0 <= d <= Qmax cap 1 + (1 # 2))%Q fuel) in H;
    [exact H | | | lia | constructor].
  - intros a k Ha. pose proof (retry_delay_bounds base cap a (rand k) (Hrand k)) as Hd.
    assert (H0 : (0 <= backoff base cap a)%Q).
    { unfold backoff. apply Q.min_glb; [exact Hc|].
      apply Qmult_le_0_compat; [exact Hb|].
      change 0%Q with (inject_Z 0). rewrite <- Zle_Qle.
      apply Z.pow_nonneg. lia. }
    assert (H1 : (backoff base cap a <= cap)%Q) by apply Q.le_min_l.
    pose proof (Q.le_max_l cap 1) as H2. lra.
  - intros k. pose proof (Hrand k) as Hk.
    pose proof (Q.le_max_r cap 1) as H2. lra.
Qed.

Lemma with_retry_sleeps_bounded_witness :
  let call := fun j : nat =>
                if (j <? 1)%nat then Raise (APIError "[500]") else Ret 0 in
  let rand := fun _ : nat => (1 # 3)%Q in
  let w := mkWorld 2 1 [retry_delay DEFAULT_BASE DEFAULT_CAP 1 (1 # 3)] in
  (0 <= DEFAULT_BASE)%Q /\ (0 <= DEFAULT_CAP)%Q
  /\ (forall k, 0 <= rand k <= 1)%Q
  /\ with_retry call rand 9 DEFAULT_MAX_TRIES DEFAULT_BASE DEFAULT_CAP
     = Some (Ret 0, w)
  /\ Forall (fun d => 0 <= d <= Qmax DEFAULT_CAP 1 + (1 # 2))%Q (slept w).
Proof.
  intros call rand w.
  assert (H1 : (0 <= DEFAULT_BASE)%Q) by (unfold DEFAULT_BASE; lra).
  assert (H2 : (0 <= DEFAULT_CAP)%Q) by (unfold DEFAULT_CAP; lra).
  assert (H3 : forall k, (0 <= rand k <= 1)%Q) by (intros k; unfold rand; lra).
  assert (H4 : with_retry call rand 9 DEFAULT_MAX_TRIES DEFAULT_BASE DEFAULT_CAP
               = Some (Ret 0, w)) by reflexivity.
  split; [exact H1|]. split; [exact H2|]. split; [exact H3|].
  split; [exact H4|].
  exact (with_retry_sleeps_bounded Z call rand 9 DEFAULT_MAX_TRIES DEFAULT_BASE
           DEFAULT_CAP (Ret 0) w H1 H2 H3 H4).
Defined.

(* ----------------------------------------------------------------- *)
(** ** More on the restart loop *)

(** X9. With random values in [0, 1], [main] sleeps at most twice, each
    time between 3 and 11.5 seconds, and at most 18 seconds in all. *)
Theorem main_sleeps_bounded (run_once : nat -> result unit) (rand : nat -> Q) :
  (forall k, 0 <= rand k <= 1)%Q ->
  let w := snd (main run_once rand) in
  (List.length (slept w) <= 2)%nat
  /\ Forall (fun d => 3 <= d <= 23 # 2)%Q (slept w)
  /\ (total_sleep (slept w) <= 18)%Q.
Proof.
  intros Hrand. cbv zeta.
  assert (H1 : forall e u, (0 <= u <= 1)%Q ->
                           (3 <= restart_delay 1 e u <= 13 # 2)%Q).
  { intros e u Hu. unfold restart_delay.
    destruct (is_api_error e); change (inject_Z 1) with 1%Q; lra. }
  assert (H2 : forall e u, (0 <= u <= 1)%Q ->
                           (3 <= restart_delay 2 e u <= 23 # 2)%Q).
  { intros e u Hu. unfold restart_delay.
    destruct (is_api_error e); change (inject_Z 2) with 2%Q; lra. }
  destruct (main_outcomes run_once rand)
    as [[_ Hm] | [[e1 [_ [_ [_ Hm]]]] | [e1 [e2 [_ [_ [_ [_ Hm]]]]]]]];
    rewrite Hm; cbn [snd slept List.length total_sleep fold_right].
  - repeat split; [lia | constructor | lra].
  - pose proof (H1 e1 _ (Hrand 0%nat)).
    repeat split; [lia | repeat constructor; lra | lra].
  - pose proof (H1 e1 _ (Hrand 0%nat)). pose proof (H2 e2 _ (Hrand 1%nat)).
    repeat split; [lia | repeat constructor; lra | lra].
Qed.

Lemma main_sleeps_bounded_witness :
  let run_once := fun _ : nat => Raise (APIError "[503]") in
  let rand := fun _ : nat => 1%Q in
  (forall k, 0 <= rand k <= 1)%Q
  /\ slept (snd (main run_once rand))
     = [restart_delay 1 (APIError "[503]") 1; restart_delay 2 (APIError "[503]") 1]
  /\ (List.length (slept (snd (main run_once rand))) <= 2)%nat
  /\ Forall (fun d => 3 <= d <= 23 # 2)%Q (slept (snd (main run_once rand)))
  /\ (total_sleep (slept (snd (main run_once rand))) <= 18)%Q.
Proof.
  intros run_once rand.
  assert (H : forall k, (0 <= rand k <= 1)%Q) by (intros k; unfold rand; lra).
  split; [exact H|]. split; [reflexivity|].
  exact (main_sleeps_bounded run_once rand H).
Defined.

(* ----------------------------------------------------------------- *)
(** ** More on the coercers *)

Lemma currency_char_not_space (c : ascii) :
  currency_char c = true -> Str.is_space c = false.
Proof.
  intros H. apply currency_char_cases in H.
  destruct H as [H | [-> | [-> | ->]]]; try reflexivity.
  unfold Str.is_digit, Str.is_space in *. lia.
Qed.

Lemma filter_lstrip (p : ascii -> bool) (s : string) :
  (forall c, p c = true -> Str.is_space c = false) ->
  Str.filter p (Str.lstrip s) = Str.filter p s.
Proof.
  intros Hp. induction s as [|c s IH]; [reflexivity|]. simpl.
  destruct (Str.is_space c) eqn:Hc; [|reflexivity].
  destruct (p c) eqn:Hpc; [|exact IH].
  rewrite (Hp c Hpc) in Hc. discriminate Hc.
Qed.

Lemma filter_rstrip (p : ascii -> bool) (s : string) :
  (forall c, p c = true -> Str.is_space c = false) ->
  Str.filter p (Str.rstrip s) = Str.filter p s.
Proof.
  intros Hp. induction s as [|c s IH]; [reflexivity|]. simpl.
  destruct (Str.rstrip s) as [|d t] eqn:E.
  - simpl in IH. destruct (Str.is_space c) eqn:Hc.
    + destruct (p c) eqn:Hpc; [|exact IH].
      rewrite (Hp c Hpc) in Hc. discriminate Hc.
    + simpl. now rewrite <- IH.
  - simpl. rewrite <- IH. reflexivity.
Qed.

Lemma filter_idem (p : ascii -> bool) (s : string) :
  Str.filter p (Str.filter p s) = Str.filter p s.
Proof.
  induction s as [|c s IH]; [reflexivity|]. simpl.
  destruct (p c) eqn:E; [simpl; now rewrite E, IH | exact IH].
Qed.

Lemma strip_no_space (s : string) :
  Str.forallb (fun c => negb (Str.is_space c)) s = true -> Str.strip s = s.
Proof.
  intros H. unfold Str.strip.
  assert (Hl : Str.lstrip s = s).
  { destruct s as [|c s]; [reflexivity|]. simpl in *.
    apply andb_true_iff in H as [Hc _]. now destruct (Str.is_space c). }
  rewrite Hl. induction s as [|c s IH]; [reflexivity|].
  simpl in H. apply andb_true_iff in H as [Hc Hs].
  simpl. rewrite IH.
  - destruct s; [now destruct (Str.is_space c) | reflexivity].
  - exact Hs.
  - destruct s as [|d s]; [reflexivity|]. simpl in *.
    apply andb_true_iff in Hs as [Hd _]. now destruct (Str.is_space d).
Qed.

Lemma filtered_no_space (s : string) :
  Str.forallb (fun c => negb (Str.is_space c)) (Str.filter currency_char s)
  = true.
Proof.
  induction s as [|c s IH]; [reflexivity|]. simpl.
  destruct (currency_char c) eqn:E; [|exact IH].
  simpl. now rewrite (currency_char_not_space c E), IH.
Qed.

Lemma clean_currency_text_filter (s : string) :
  clean_currency_text (Str.filter currency_char s) = clean_currency_text s.
Proof.
  unfold clean_currency_text.
  rewrite (strip_no_space _ (filtered_no_space s)), filter_idem.
  unfold Str.strip at 1.
  now rewrite (filter_rstrip _ _ currency_char_not_space),
              (filter_lstrip _ _ currency_char_not_space).
Qed.

(** X10. [clean_currency] reads nothing of a text but its digits, commas,
    points and minus signs: the text and the text stripped of every other
    character (currency symbol, blanks, letters) give the same result. *)
Theorem clean_currency_ignores_other_characters (s : string) :
  clean_currency (VStr s) = clean_currency (VStr (Str.filter currency_char s))
  /\ clean_currency (VStr ("R$ " ++ s)) = clean_currency (VStr s).
Proof.
  assert (Hmain : forall t,
             clean_currency (VStr t)
             = Ret (clean_currency_text (Str.filter currency_char t))).
  { intros t. unfold clean_currency. cbn [is_none_or_empty].
    destruct (String.eqb_spec t "") as [-> | _]; [reflexivity|].
    now rewrite clean_currency_text_filter. }
  split.
  - rewrite (Hmain s), (Hmain (Str.filter currency_char s)).
    now rewrite filter_idem.
  - rewrite (Hmain ("R$ " ++ s)), (Hmain s). reflexivity.
Qed.

Lemma clean_currency_result (v r : value) :
  clean_currency v = Ret r -> r = VStr "" \/ exists f, r = VFloat f.
Proof.
  unfold clean_currency, clean_currency_text.
  destruct (is_none_or_empty v); [intros [= <-]; now left|].
  destruct v as [|s|b|n|f|d|d t];
    try (destruct (Float.of_int n));
    try (intros [= <-]; destruct (Float.of_string _); now eauto);
    intros [= <-]; eauto.
Qed.

Lemma to_gs_serial_result (v r : value) :
  to_gs_serial v = Ret r ->
  r = VStr "" \/ is_int_or_float r = true.
Proof.
  unfold to_gs_serial, serial_of.
  destruct (is_none_or_empty v); [intros [= <-]; now left|].
  destruct (is_int_or_float v) eqn:Hn; [intros [= <-]; now right|].
  destruct v; try discriminate Hn; try (intros [= <-]; now left).
  - destruct (String.eqb (Str.strip s) ""); [intros [= <-]; now left|].
    destruct (first_parse _ _); [|intros [= <-]; now left].
    destruct (Float.of_int _); intros [= <-]; now right.
  - destruct (Float.of_int _); intros [= <-]; now right.
  - destruct (Float.of_int _); intros [= <-]; now right.
Qed.

(** X11. Coercing a value that is already coerced changes nothing: a cell
    that [treat_cell] returned is returned as it is by [treat_cell] for the
    same column type. *)
Theorem treat_cell_idempotent (t : tipo) (v r : value) :
  treat_cell t v = Ret r -> treat_cell t r = Ret r.
Proof.
  destruct t; cbn [treat_cell].
  - intros [= <-]. reflexivity.
  - destruct (is_int_or_float v) eqn:Hn.
    + intros [= <-]. now rewrite Hn.
    + intros H. apply to_gs_serial_result in H as [-> | H]; [reflexivity|].
      now rewrite H.
  - intros H. apply clean_currency_result in H as [-> | [f ->]]; reflexivity.
Qed.

Lemma treat_cell_idempotent_witness :
  treat_cell valor (VStr "R$ 1.234,56") = Ret (VFloat f_1234_56)
  /\ treat_cell valor (VFloat f_1234_56) = Ret (VFloat f_1234_56).
Proof.
  assert (H : treat_cell valor (VStr "R$ 1.234,56") = Ret (VFloat f_1234_56))
    by (vm_compute; reflexivity).
  split; [exact H|].
  exact (treat_cell_idempotent valor (VStr "R$ 1.234,56") (VFloat f_1234_56) H).
Defined.

Lemma iter_xO_value (p q : positive) :
  Zpos (Pos.iter xO p q) = Zpos p * 2 ^ Zpos q.
Proof.
  induction q as [|q IH] using Pos.peano_ind.
  - simpl. lia.
  - rewrite Pos.iter_succ, Pos2Z.inj_xO, IH, Pos2Z.inj_succ, Z.pow_succ_r by lia.
    lia.
Qed.

(** A mantissa of at most 53 bits is only shifted, never rounded. *)
Lemma binary_round_small_exact (s : bool) (p : positive) :
  (digits2_pos p <= 53)%positive ->
  exists m e,
    binary_round Float.prec Float.emax s p 0 = S754_finite s m e
    /\ e <= 0
    /\ Zpos m = Zpos p * 2 ^ (- e).
Proof.
  intros Hd. unfold binary_round, shl_align.
  assert (Hf : fexp Float.prec Float.emax (Zpos (digits2_pos p) + 0)
               = Zpos (digits2_pos p) - 53)
    by (unfold fexp, emin, Float.prec, Float.emax; lia).
  rewrite Hf.
  destruct (Zpos (digits2_pos p) - 53 - 0) as [|q|q] eqn:Hq; try lia.
  - exists p, 0. split; [apply binary_round_aux_exact; lia|].
    split; [lia | simpl; lia].
  - exists (Pos.iter xO p q), (Zpos (digits2_pos p) - 53).
    split; [|split; [lia|]].
    + apply binary_round_aux_exact; [|lia]. rewrite digits2_pos_shift. lia.
    + rewrite iter_xO_value. f_equal. f_equal. lia.
Qed.

(** [float(n)] is exactly [n] for [|n| < 2^53]. *)
Lemma of_int_exact (n : Z) :
  - 2 ^ 53 < n < 2 ^ 53 ->
  exists f, Float.of_int n = Ret f /\ (Float.to_Q f == inject_Z n)%Q.
Proof.
  intros Hn. unfold Float.of_int, Float.of_Z, binary_normalize.
  destruct n as [|p|p].
  - exists (S754_zero false). split; reflexivity.
  - destruct (binary_round_small_exact false p) as [m [e [-> [He Hm]]]];
      [apply small_digits; lia|].
    eexists. split; [reflexivity|]. unfold Float.to_Q.
    destruct (Z.leb_spec 0 e).
    + assert (e = 0) as -> by lia. simpl in Hm. unfold Qeq. simpl. lia.
    + unfold Qeq. cbn [Qnum Qden inject_Z].
      rewrite Z2Pos.id by (apply Z.pow_pos_nonneg; lia). lia.
  - destruct (binary_round_small_exact true p) as [m [e [-> [He Hm]]]];
      [apply small_digits; lia|].
    eexists. split; [reflexivity|]. unfold Float.to_Q.
    destruct (Z.leb_spec 0 e).
    + assert (e = 0) as -> by lia. simpl in Hm. unfold Qeq. simpl. lia.
    + unfold Qeq. cbn [Qnum Qden inject_Z].
      rewrite Z2Pos.id by (apply Z.pow_pos_nonneg; lia). lia.
Qed.

(** X12. For every date that [datetime] can build, [to_gs_serial] returns a
    float whose value is exactly the number of days from 1899-12-30 to the
    date: the conversion to a float rounds nothing. The time of day of a
    datetime is dropped. *)
Theorem to_gs_serial_date_exact (d : date) (t : time) :
  Cal.valid d = true ->
  exists f,
    to_gs_serial (VDate d) = Ret (VFloat f)
    /\ to_gs_serial (VDateTime d t) = Ret (VFloat f)
    /\ (Float.to_Q f == inject_Z (Cal.days_between d epoch))%Q.
Proof.
  intros Hv. pose proof (toordinal_bound d Hv) as Hd.
  destruct (of_int_exact (Cal.days_between d epoch)) as [f [Hf Hq]].
  - unfold Cal.days_between. change (Cal.toordinal epoch) with 693594.
    change (2 ^ 53) with 9007199254740992. lia.
  - exists f. cbn [to_gs_serial is_none_or_empty is_int_or_float].
    unfold serial_of. rewrite Hf. now repeat split.
Qed.

Lemma to_gs_serial_date_exact_witness :
  Cal.valid (mkDate 1899 12 31) = true
  /\ exists f,
      to_gs_serial (VDate (mkDate 1899 12 31)) = Ret (VFloat f)
      /\ to_gs_serial (VDateTime (mkDate 1899 12 31) (mkTime 23 59 59 0))
         = Ret (VFloat f)
      /\ (Float.to_Q f == inject_Z (Cal.days_between (mkDate 1899 12 31) epoch))%Q.
Proof.
  assert (H : Cal.valid (mkDate 1899 12 31) = true) by reflexivity.
  split; [exact H|].
  exact (to_gs_serial_date_exact (mkDate 1899 12 31) (mkTime 23 59 59 0) H).
Defined.

(** X13. For an [int] [n] with [|n| < 2^53], [clean_currency] returns the
    float of value exactly [n]: the conversion rounds nothing. *)
Theorem clean_currency_int_exact (n : Z) :
  - 2 ^ 53 < n < 2 ^ 53 ->
  exists f,
    clean_currency (VInt n) = Ret (VFloat f)
    /\ (Float.to_Q f == inject_Z n)%Q.
Proof.
  intros Hn. destruct (of_int_exact n Hn) as [f [Hf Hq]].
  exists f. cbn [clean_currency is_none_or_empty]. rewrite Hf. now split.
Qed.

Lemma clean_currency_int_exact_witness :
  - 2 ^ 53 < -1500 < 2 ^ 53
  /\ exists f,
      clean_currency (VInt (-1500)) = Ret (VFloat f)
      /\ (Float.to_Q f == inject_Z (-1500))%Q.
Proof.
  assert (H : - 2 ^ 53 < -1500 < 2 ^ 53)
    by (change (2 ^ 53) with 9007199254740992; lia).
  split; [exact H | exact (clean_currency_int_exact (-1500) H)].
Defined.

(* ----------------------------------------------------------------- *)
(** ** More on the row count *)

Lemma strip_trailing_blanks_app_blanks (v blanks : list value) :
  forallb is_blank_cell blanks = true ->
  strip_trailing_blanks (v ++ blanks) = strip_trailing_blanks v.
Proof.
  induction blanks as [|x b IH] using rev_ind; intros H.
  - now rewrite app_nil_r.
  - rewrite forallb_app in H. apply andb_true_iff in H as [Hb Hx].
    simpl in Hx. rewrite andb_true_r in Hx.
    rewrite app_assoc, strip_trailing_blanks_app, Hx. now apply IH.
Qed.

Lemma last_cell_nth (l : list value) :
  last_cell l = nth_error l (pred (List.length l)).
Proof.
  induction l as [|x l IH]; [reflexivity|].
  destruct l as [|y l]; [reflexivity|].
  change (last_cell (x :: y :: l)) with (last_cell (y :: l)). now rewrite IH.
Qed.

(** Every entry at or after the stripped length is blank. *)
Lemma beyond_strip_blank (v : list value) (i : nat) (x : value) :
  nth_error v i = Some x ->
  (List.length (strip_trailing_blanks v) <= i)%nat ->
  is_blank_cell x = true.
Proof.
  intros Hx Hi.
  destruct (strip_trailing_blanks_spec v) as [blanks [Hv [Hb _]]].
  rewrite Hv, nth_error_app2 in Hx by exact Hi.
  apply nth_error_In in Hx. rewrite forallb_forall in Hb. now apply Hb.
Qed.

(** The last entry kept by the stripping is not blank. *)
Lemma strip_last_not_blank (v : list value) (k : nat) :
  List.length (strip_trailing_blanks v) = S k ->
  exists x, nth_error v k = Some x /\ is_blank_cell x = false.
Proof.
  intros Hk.
  destruct (strip_trailing_blanks_spec v) as [blanks [Hv [_ Hl]]].
  rewrite last_cell_nth, Hk in Hl. cbn [pred] in Hl.
  destruct (nth_error (strip_trailing_blanks v) k) as [x|] eqn:E.
  - exists x. split; [|exact Hl].
    rewrite Hv, nth_error_app1 by lia. exact E.
  - rewrite Hl in Hk. discriminate Hk.
Qed.

Lemma infer_row_count_upper (cols : dict (list value)) :
  forall col values,
    In (col, values) cols ->
    Z.of_nat (List.length (strip_trailing_blanks values)) <= infer_row_count cols.
Proof.
  induction cols as [|kv rest IH]; intros col values Hin; [destruct Hin|].
  unfold infer_row_count in *. cbn [map fold_right].
  destruct Hin as [-> | Hin]; [simpl; lia|].
  specialize (IH col values Hin). lia.
Qed.

Lemma infer_row_count_attained (cols : dict (list value)) :
  0 < infer_row_count cols ->
  exists col values,
    In (col, values) cols
    /\ infer_row_count cols
       = Z.of_nat (List.length (strip_trailing_blanks values)).
Proof.
  induction cols as [|[col values] rest IH]; intros Hpos.
  - unfold infer_row_count in Hpos. simpl in Hpos. lia.
  - unfold infer_row_count in *. cbn [map fold_right snd] in *.
    destruct (Z.max_spec (Z.of_nat (List.length (strip_trailing_blanks values)))
                (fold_right Z.max 0
                   (map (fun kv => Z.of_nat (List.length (strip_trailing_blanks (snd kv)))) rest)))
      as [[Hlt Hmax] | [Hge Hmax]]; rewrite Hmax in *.
    + destruct (IH Hpos) as [c [v [Hin Heq]]].
      exists c, v. split; [now right | exact Heq].
    + exists col, values. split; [now left | reflexivity].
Qed.

(** X14. The count [N] that [calc_num_rows_from_columns] returns is the
    data extent: in every column every cell at index [N] or beyond is
    blank, and when [N > 0] some column has a cell that is not blank at
    index [N - 1]. No row holding data is left out, and the last row
    counted holds data. *)
Theorem calc_num_rows_is_data_extent (cols_dict : dict (list value)) (N : Z) :
  calc_num_rows_from_columns cols_dict = Some N ->
  0 <= N
  /\ (forall col values i x,
         In (col, values) cols_dict ->
         nth_error values i = Some x ->
         N <= Z.of_nat i ->
         is_blank_cell x = true)
  /\ (0 < N ->
      exists col values x,
        In (col, values) cols_dict
        /\ nth_error values (Z.to_nat (N - 1)) = Some x
        /\ is_blank_cell x = false).
Proof.
  unfold calc_num_rows_from_columns. rewrite calc_loop_spec by lia.
  pose proof (infer_row_count_nonneg cols_dict) as Hn.
  rewrite Z.max_r by exact Hn. intros [= <-].
  split; [exact Hn|]. split.
  - intros col values i x Hin Hx Hi.
    apply (beyond_strip_blank values i x Hx).
    pose proof (infer_row_count_upper cols_dict col values Hin). lia.
  - intros Hpos.
    destruct (infer_row_count_attained cols_dict Hpos) as [col [values [Hin Heq]]].
    destruct (strip_last_not_blank values (Z.to_nat (infer_row_count cols_dict - 1)))
      as [x [Hx Hb]]; [lia|].
    now exists col, values, x.
Qed.

Lemma calc_num_rows_is_data_extent_witness :
  let cols := [("A", [VStr "x"; VStr ""; VInt 0; VStr " "; VStr ""]);
               ("B", [VStr "y"; VNone])] in
  calc_num_rows_from_columns cols = Some 3
  /\ 0 <= 3
  /\ (forall col values i x,
         In (col, values) cols ->
         nth_error values i = Some x ->
         3 <= Z.of_nat i ->
         is_blank_cell x = true)
  /\ (0 < 3 ->
      exists col values x,
        In (col, values) cols
        /\ nth_error values (Z.to_nat (3 - 1)) = Some x
        /\ is_blank_cell x = false).
Proof.
  intros cols.
  assert (H : calc_num_rows_from_columns cols = Some 3) by reflexivity.
  split; [exact H | exact (calc_num_rows_is_data_extent cols 3 H)].
Defined.

(** X15. Padding the columns with "" changes nothing of the count: the
    columns as the batched read returns them and the columns padded to any
    length give the same number of rows. *)
Theorem calc_num_rows_ignores_padding (cols_dict : dict (list value)) (len : nat) :
  calc_num_rows_from_columns
    (map (fun kv => (fst kv, pad_column len (snd kv))) cols_dict)
  = calc_num_rows_from_columns cols_dict.
Proof.
  unfold calc_num_rows_from_columns. rewrite !calc_loop_spec by lia.
  f_equal. f_equal. unfold infer_row_count. rewrite map_map. f_equal.
  apply map_ext. intros [k v]. cbn [fst snd]. unfold pad_column.
  rewrite strip_trailing_blanks_app_blanks; [reflexivity|].
  apply forallb_forall. intros x Hx. apply repeat_spec in Hx. now subst x.
Qed.

(* ----------------------------------------------------------------- *)
(** ** The coercion of the rows *)

Lemma dict_get_map {V W} (f : V -> W) (k : string) (d : dict V) :
  dict_get k (map (fun kv => (fst kv, f (snd kv))) d)
  = option_map f (dict_get k d).
Proof.
  induction d as [|[k' v] d IH]; [reflexivity|]. cbn [map dict_get fst snd].
  destruct (String.eqb k k'); [reflexivity | exact IH].
Qed.

Lemma nth_pad_column (len r : nat) (col : list value) :
  nth r (pad_column len col) (VStr "") = nth r col (VStr "").
Proof.
  unfold pad_column.
  destruct (Nat.lt_ge_cases r (List.length col)) as [Hlt | Hge].
  - now rewrite app_nth1.
  - rewrite app_nth2 by exact Hge. rewrite (nth_overflow col) by exact Hge.
    destruct (Nat.lt_ge_cases (r - List.length col) (len - List.length col)).
    + now rewrite nth_repeat_lt.
    + apply nth_overflow. now rewrite repeat_length.
Qed.

Lemma treat_row_pad (len : nat) (maps : list (string * string * tipo))
      (data_cols : dict (list value)) (r : nat) :
  treat_row maps
            (map (fun kv => (fst kv, pad_column len (snd kv))) data_cols) r
  = treat_row maps data_cols r.
Proof.
  induction maps as [|[[src dst] t] rest IH]; [reflexivity|].
  cbn [treat_row]. rewrite dict_get_map, IH.
  destruct (dict_get src data_cols) as [col|]; [|reflexivity].
  cbn [option_map]. now rewrite nth_pad_column.
Qed.

(** X16. A cell missing at the end of a column is read as "": the treated
    matrix built from the columns as returned is the one built from the
    columns padded with "" to any length. *)
Theorem treated_matrix_ignores_padding
        (data_cols : dict (list value)) (len : nat) (num_rows_data : Z) :
  treated_matrix
    (map (fun kv => (fst kv, pad_column len (snd kv))) data_cols)
    num_rows_data
  = treated_matrix data_cols num_rows_data.
Proof.
  unfold treated_matrix. generalize (seq 0 (Z.to_nat num_rows_data)).
  intros rs. induction rs as [|r rs IH]; [reflexivity|].
  cbn [treat_rows]. now rewrite treat_row_pad, IH.
Qed.

Lemma of_int_raises (n : Z) (e : exn) :
  Float.of_int n = Raise e -> e = OverflowError.
Proof.
  unfold Float.of_int. destruct (Float.of_Z n); congruence.
Qed.

Lemma treat_cell_raises (t : tipo) (v : value) (e : exn) :
  treat_cell t v = Raise e -> e = OverflowError.
Proof.
  destruct t; cbn [treat_cell].
  - discriminate.
  - destruct (is_int_or_float v) eqn:Hn; [discriminate|].
    unfold to_gs_serial, serial_of. rewrite Hn.
    destruct (is_none_or_empty v); [discriminate|].
    destruct v as [|s|b|n|f|d|d t]; try discriminate.
    + destruct (String.eqb (Str.strip s) ""); [discriminate|].
      destruct (first_parse _ _); [|discriminate].
      destruct (Float.of_int _) eqn:E; [discriminate|].
      intros [= <-]. exact (of_int_raises _ _ E).
    + destruct (Float.of_int _) eqn:E; [discriminate|].
      intros [= <-]. exact (of_int_raises _ _ E).
    + destruct (Float.of_int _) eqn:E; [discriminate|].
      intros [= <-]. exact (of_int_raises _ _ E).
  - unfold clean_currency.
    destruct (is_none_or_empty v); [discriminate|].
    destruct v as [|s|b|n|f|d|d t]; try discriminate.
    destruct (Float.of_int n) eqn:E; [discriminate|].
    intros [= <-]. exact (of_int_raises _ _ E).
Qed.

Lemma treat_row_raises (maps : list (string * string * tipo))
      (data_cols : dict (list value)) (r : nat) (e : exn) :
  (forall m, In m maps -> exists col, dict_get (fst (fst m)) data_cols = Some col) ->
  treat_row maps data_cols r = Raise e ->
  e = OverflowError.
Proof.
  induction maps as [|[[src dst] t] rest IH]; intros Hkeys; [discriminate|].
  cbn [treat_row].
  destruct (Hkeys (src, dst, t)) as [col Hcol]; [now left|].
  cbn [fst] in Hcol. rewrite Hcol.
  destruct (treat_cell t _) eqn:Ec.
  - destruct (treat_row rest data_cols r) eqn:Er; [discriminate|].
    intros [= <-]. apply IH; [|reflexivity].
    intros m Hm. apply Hkeys. now right.
  - intros [= <-]. exact (treat_cell_raises _ _ _ Ec).
Qed.

(** X17. The normalised columns are keyed by the 23 source columns of
    [MAPPINGS], in that order, whatever the batched read returned, even
    fewer ranges than asked; so the coercion of the rows never fails on a
    missing column, and when it raises it is the [OverflowError] of a
    numeric cell. *)
Theorem normalize_has_every_source_column
        (batch : list (list (list value))) (num_rows_data : Z) :
  map fst (normalize batch) = map (fun m => fst (fst m)) MAPPINGS
  /\ (forall e,
         treated_matrix (normalize batch) num_rows_data = Raise e ->
         e = OverflowError).
Proof.
  split; [reflexivity|].
  assert (Hkeys : forall m, In m MAPPINGS ->
                            exists col, dict_get (fst (fst m)) (normalize batch)
                                        = Some col).
  { intros [[src dst] t] Hin. apply In_nth_error in Hin as [i Hi].
    eexists. exact (normalize_get batch i src dst t Hi). }
  unfold treated_matrix. generalize (seq 0 (Z.to_nat num_rows_data)).
  intros rs. induction rs as [|r rs IH]; intros e; [discriminate|].
  cbn [treat_rows].
  destruct (treat_row MAPPINGS (normalize batch) r) eqn:Er.
  - destruct (treat_rows (normalize batch) rs) eqn:Es; [discriminate|].
    intros [= <-]. now apply IH.
  - intros [= <-]. exact (treat_row_raises _ _ _ _ Hkeys Er).
Qed.

Lemma treat_row_length (maps : list (string * string * tipo))
      (data_cols : dict (list value)) (r : nat) :
  forall row, treat_row maps data_cols r = Ret row ->
              List.length row = List.length maps.
Proof.
  induction maps as [|[[src dst] t] rest IH]; intros row H; cbn [treat_row] in H.
  - now injection H as <-.
  - destruct (dict_get src data_cols); [|discriminate H].
    destruct (treat_cell t _); [|discriminate H].
    destruct (treat_row rest data_cols r) as [row'|]; [|discriminate H].
    injection H as <-. cbn [List.length]. now rewrite (IH row' eq_refl).
Qed.

(** X18. Every treated row, and the header, has 23 values, as many as the
    destination range B..X has columns, and the [k]-th value belongs to the
    destination column that the [k]-th mapping names: the destination
    columns of [MAPPINGS] are B, C, ..., X in order. *)
Theorem rows_fit_destination_columns :
  (forall data_cols r row,
      treat_row MAPPINGS data_cols r = Ret row ->
      Z.of_nat (List.length row)
      = col_letter_to_index DEST_END_COL
        - col_letter_to_index DEST_START_COL + 1)
  /\ (forall get,
         Z.of_nat (List.length (read_headers get))
         = col_letter_to_index DEST_END_COL
           - col_letter_to_index DEST_START_COL + 1)
  /\ (forall k src dst t,
         nth_error MAPPINGS k = Some (src, dst, t) ->
         index_to_col_letter 3 (col_letter_to_index DEST_START_COL + Z.of_nat k)
         = Some dst).
Proof.
  split; [|split].
  - intros data_cols r row H. apply treat_row_length in H. now rewrite H.
  - intros get. unfold read_headers. now rewrite length_map.
  - intros k src dst t H.
    do 23 (destruct k as [|k]; [injection H as _ <- _; reflexivity|]).
    destruct k; discriminate H.
Qed.

(* ----------------------------------------------------------------- *)
(** ** More on the chunked write *)

Section ChunkedWriteMore.

Variable set_matrix : nat -> result unit.
Variable matrix : list (list value).

Local Abbreviation rows := (Z.of_nat (List.length matrix)).

(** Whatever the writes do, the writes issued when the loop ends satisfy
    the invariant for some number of rows. *)
Lemma write_loop_keeps_inv (fuel : nat) :
  forall i start_row_dst issued r ws,
    write_inv matrix i start_row_dst issued ->
    write_loop set_matrix fuel matrix rows i start_row_dst issued = Some (r, ws) ->
    exists i' start', write_inv matrix i' start' ws.
Proof.
  induction fuel as [|fuel IH]; intros i start issued r ws Hinv H;
    [discriminate H|].
  cbn [write_loop] in H. destruct (i <? rows) eqn:Hlt.
  - apply Z.ltb_lt in Hlt.
    pose proof (write_inv_step matrix i start issued Hinv Hlt) as Hstep.
    cbv zeta in Hstep.
    destruct (set_matrix (List.length issued)).
    + exact (IH _ _ _ _ _ Hstep H).
    + injection H as _ <-. eauto.
  - injection H as _ <-. eauto.
Qed.

(** From a state with fewer writes than [k], when the writes before the
    [k]-th succeed and the [k]-th fails, the loop ends on that failure. *)
Lemma write_loop_fails_at (k : nat) (e : exn) (d : nat) :
  (forall j, (j < k)%nat -> set_matrix j = Ret tt) ->
  set_matrix k = Raise e ->
  Z.of_nat k < ceil_div rows BATCH_ROWS ->
  forall fuel i start_row_dst issued,
    write_inv matrix i start_row_dst issued ->
    (List.length issued + d = k)%nat ->
    (d < fuel)%nat ->
    write_loop set_matrix fuel matrix rows i start_row_dst issued
    = Some (Raise e, map (batch_write matrix) (seq 0 (S k))).
Proof.
  intros Hok Hfail Hk.
  induction d as [|d IH]; intros fuel i start issued Hinv Hlen Hfuel;
    (destruct fuel as [|fuel]; [lia|]); cbn [write_loop];
    (assert (Hlt : i < rows);
     [ pose proof (inv_range _ _ _ _ Hinv) as Hr;
       pose proof (inv_count _ _ _ _ Hinv) as Hc;
       destruct (Z.eq_dec i rows) as [Heq | Hne]; [|lia];
       rewrite Heq in Hc; lia |]);
    (destruct (Z.ltb_spec i rows) as [_ | Hge]; [|lia]);
    pose proof (write_inv_step matrix i start issued Hinv Hlt) as Hstep;
    cbv zeta in Hstep.
  - replace (List.length issued) with k by lia. rewrite Hfail.
    f_equal. f_equal.
    rewrite (list_by_index (batch_write matrix) _ 0%nat (inv_each _ _ _ _ Hstep)).
    rewrite length_app. cbn [List.length].
    replace (List.length issued + 1)%nat with (S k) by lia. reflexivity.
  - rewrite (Hok (List.length issued)) by lia.
    apply IH; [exact Hstep | rewrite length_app; cbn [List.length]; lia | lia].
Qed.

End ChunkedWriteMore.

(** X19. When the first [k] writes succeed and the next one raises, the
    loop stops there: the error goes up, the writes issued are the first
    [k + 1] batches and no later batch is written. *)
Theorem write_data_stops_at_failed_write
        (set_matrix : nat -> result unit) (matrix : list (list value))
        (num_rows_data : Z) (fuel : nat) (k : nat) (e : exn) :
  num_rows_data = Z.of_nat (List.length matrix) ->
  (forall j, (j < k)%nat -> set_matrix j = Ret tt) ->
  set_matrix k = Raise e ->
  Z.of_nat k < ceil_div num_rows_data BATCH_ROWS ->
  (k < fuel)%nat ->
  write_data set_matrix fuel matrix num_rows_data
  = Some (Raise e, map (batch_write matrix) (seq 0 (S k))).
Proof.
  intros HN Hok Hfail Hk Hfuel. subst num_rows_data. unfold write_data.
  destruct matrix as [|row rest] eqn:Em.
  - exfalso. cbn in Hk. lia.
  - rewrite <- Em in *.
    apply (write_loop_fails_at set_matrix matrix k e k Hok Hfail Hk);
      [apply write_inv_init | reflexivity | exact Hfuel].
Qed.

(** 7000 rows, the second write fails: rows 6003..7002 are not written. *)
Lemma write_data_stops_at_failed_write_witness :
  let set_matrix := fun j : nat =>
                      if (j =? 1)%nat then Raise (APIError "[403]") else Ret tt in
  let matrix := repeat [VInt 1] (Z.to_nat 7000) in
  7000 = Z.of_nat (List.length matrix)
  /\ (forall j, (j < 1)%nat -> set_matrix j = Ret tt)
  /\ set_matrix 1%nat = Raise (APIError "[403]")
  /\ Z.of_nat 1 < ceil_div 7000 BATCH_ROWS
  /\ (1 < 4)%nat
  /\ write_data set_matrix 4 matrix 7000
     = Some (Raise (APIError "[403]"), map (batch_write matrix) (seq 0 2)).
Proof.
  intros set_matrix matrix.
  assert (H1 : 7000 = Z.of_nat (List.length matrix))
    by (unfold matrix; rewrite repeat_length; reflexivity).
  assert (H2 : forall j, (j < 1)%nat -> set_matrix j = Ret tt)
    by (intros j Hj; assert (j = 0%nat) as -> by lia; reflexivity).
  assert (H3 : set_matrix 1%nat = Raise (APIError "[403]")) by reflexivity.
  assert (H4 : Z.of_nat 1 < ceil_div 7000 BATCH_ROWS) by reflexivity.
  assert (H5 : (1 < 4)%nat) by lia.
  repeat (split; [assumption|]).
  exact (write_data_stops_at_failed_write set_matrix matrix 7000 4 1
           (APIError "[403]") H1 H2 H3 H4 H5).
Defined.

(** X20. Whether the writes succeed or not, every write issued covers a
    range of rows that is not empty, starts at row 3 or below it, and ends
    within the number of rows that [run_once] has asked
    [auto_expand_rows] for; the header row is within it too. *)
Theorem writes_stay_within_requested_rows
        (set_matrix : nat -> result unit) (matrix : list (list value))
        (num_rows_data : Z) (fuel : nat) (headers : list value)
        (r : result unit) (ws : list write) :
  num_rows_data = Z.of_nat (List.length matrix) ->
  write_data set_matrix fuel matrix num_rows_data = Some (r, ws) ->
  DEST_HEADER_ROW <= end_row headers num_rows_data
  /\ Forall (fun w => DEST_DATA_START_ROW <= w_start w <= w_end w
                      /\ w_end w <= end_row headers num_rows_data) ws.
Proof.
  intros HN H. subst num_rows_data.
  assert (Hend : DEST_DATA_START_ROW + Z.of_nat (List.length matrix) - 1
                 <= end_row headers (Z.of_nat (List.length matrix))).
  { unfold end_row, total_to_write, DEST_DATA_START_ROW, DEST_HEADER_ROW.
    destruct headers; lia. }
  split.
  { unfold DEST_DATA_START_ROW, DEST_HEADER_ROW in *. lia. }
  assert (Hinv : exists i' start', write_inv matrix i' start' ws).
  { unfold write_data in H. destruct matrix as [|row rest] eqn:Em.
    - injection H as _ <-. exists 0, DEST_DATA_START_ROW. apply write_inv_init.
    - rewrite <- Em in *.
      exact (write_loop_keeps_inv set_matrix matrix fuel _ _ _ _ _
               (write_inv_init matrix) H). }
  destruct Hinv as [i' [start' Hinv]].
  apply Forall_forall. intros w Hw.
  apply In_nth_error in Hw as [k Hk].
  pose proof (inv_each _ _ _ _ Hinv k w Hk) as ->.
  assert (Hlen : (k < List.length ws)%nat)
    by (apply nth_error_Some; congruence).
  pose proof (inv_count _ _ _ _ Hinv) as Hc.
  pose proof (inv_range _ _ _ _ Hinv) as Hr.
  unfold batch_write. cbn [w_start w_end].
  unfold ceil_div, BATCH_ROWS, DEST_DATA_START_ROW in *.
  assert (Hk' : 3000 * Z.of_nat k < i')
    by (Z.to_euclidean_division_equations; lia).
  lia.
Qed.

Lemma writes_stay_within_requested_rows_witness :
  let set_matrix := fun _ : nat => Ret tt in
  let matrix := repeat [VInt 1] (Z.to_nat 3001) in
  let headers := [VStr "h"] in
  3001 = Z.of_nat (List.length matrix)
  /\ exists ws,
      write_data set_matrix 3 matrix 3001 = Some (Ret tt, ws)
      /\ map (fun w => (w_start w, w_end w)) ws = [(3, 3002); (3003, 3003)]
      /\ end_row headers 3001 = 3004
      /\ DEST_HEADER_ROW <= end_row headers 3001
      /\ Forall (fun w => DEST_DATA_START_ROW <= w_start w <= w_end w
                          /\ w_end w <= end_row headers 3001) ws.
Proof.
  intros set_matrix matrix headers.
  assert (H1 : 3001 = Z.of_nat (List.length matrix))
    by (unfold matrix; rewrite repeat_length; reflexivity).
  split; [exact H1|].
  eexists. split; [vm_compute; reflexivity|].
  split; [vm_compute; reflexivity|]. split; [reflexivity|].
  apply (writes_stay_within_requested_rows set_matrix matrix 3001 3 headers
           (Ret tt) _ H1).
  vm_compute. reflexivity.
Defined.

(* ----------------------------------------------------------------- *)
(** ** A date written in ISO form is read back *)

Lemma digit_char (k : Z) :
  Str.is_digit (ascii_of_N (Z.to_N (48 + k mod 10))) = true.
Proof.
  assert (H : 0 <= k mod 10 < 10) by (apply Z.mod_pos_bound; lia).
  unfold Str.is_digit, Str.code. cbv zeta.
  rewrite N_ascii_embedding by lia. rewrite Z2N.id by lia.
  apply andb_true_iff. split; apply Z.leb_le; lia.
Qed.

Lemma digit_char_val (k : Z) :
  Str.digit_val (ascii_of_N (Z.to_N (48 + k mod 10))) = k mod 10.
Proof.
  assert (H : 0 <= k mod 10 < 10) by (apply Z.mod_pos_bound; lia).
  unfold Str.digit_val, Str.code.
  rewrite N_ascii_embedding by lia. rewrite Z2N.id by lia. lia.
Qed.

Lemma digit_not_space (c : ascii) :
  Str.is_digit c = true -> Str.is_space c = false.
Proof. unfold Str.is_digit, Str.is_space. lia. Qed.

Lemma digit_not_slash (c : ascii) :
  Str.is_digit c = true -> Ascii.eqb "/" c = false.
Proof.
  intros H. apply Ascii.eqb_neq. intros <-. discriminate H.
Qed.

Lemma In_py_range (lo hi x : Z) : lo <= x < hi -> In x (py_range lo hi).
Proof.
  intros H. unfold py_range. apply in_map_iff.
  exists (Z.to_nat (x - lo)). split; [lia|]. apply in_seq. lia.
Qed.

Lemma iso_tail_ok_all :
  forallb (fun m => forallb (iso_tail_ok m) (py_range 1 32)) (py_range 1 13)
  = true.
Proof. vm_compute. reflexivity. Qed.

Lemma iso_tail_ok_range (m dd : Z) :
  1 <= m <= 12 -> 1 <= dd <= 31 -> iso_tail_ok m dd = true.
Proof.
  intros Hm Hd. pose proof iso_tail_ok_all as H.
  rewrite forallb_forall in H. specialize (H m (In_py_range 1 13 m ltac:(lia))).
  rewrite forallb_forall in H. exact (H dd (In_py_range 1 32 dd ltac:(lia))).
Qed.

(** The year, written with four digits, is four digit characters that
    [int] reads back. *)
Lemma year_text (y : Z) :
  0 <= y < 10000 ->
  exists c1 c2 c3 c4,
    Cal.zero_pad 4 y = String c1 (String c2 (String c3 (String c4 "")))
    /\ Str.is_digit c1 = true /\ Str.is_digit c2 = true
    /\ Str.is_digit c3 = true /\ Str.is_digit c4 = true
    /\ Strptime.group_int (Cal.zero_pad 4 y) = y.
Proof.
  intros Hy. cbn [Cal.zero_pad append].
  do 4 eexists. split; [reflexivity|].
  repeat (split; [apply digit_char|]).
  unfold Strptime.group_int. rewrite strip_no_space.
  - cbn [Str.digits_val]. rewrite !digit_char_val.
    Z.to_euclidean_division_equations. lia.
  - cbn [Str.forallb]. now rewrite !(digit_not_space _ (digit_char _)).
Qed.

Lemma flat_map_nil {X Y} (f : X -> list Y) (l : list X) :
  (forall x, In x l -> f x = []) -> flat_map f l = [].
Proof.
  induction l as [|x l IH]; intros H; [reflexivity|]. cbn [flat_map].
  rewrite (H x) by now left. apply IH. intros y Hy. apply H. now right.
Qed.

(** A day directive takes one or two characters. *)
Lemma day_match_rest (c1 c2 : ascii) (tail : string) (mr : string * string) :
  In mr (Strptime.re_match (Strptime.directive_re Strptime.Dd)
                           (String c1 (String c2 tail))) ->
  snd mr = String c2 tail \/ snd mr = tail.
Proof.
  cbn [Strptime.directive_re Strptime.re_match Strptime.chr Strptime.rng
       Strptime.digit flat_map map app].
  repeat (match goal with
          | |- context [if ?b then _ else _] => destruct b
          end;
          cbn [flat_map map app append Strptime.re_match]);
    cbn [In];
    intros H;
    repeat (destruct H as [<- | H]; [cbn [snd]; auto|]);
    destruct H.
Qed.

(** A format that begins with day and slash reads nothing of a text whose
    second and third characters are digits. *)
Lemma day_slash_fails (c1 c2 c3 : ascii) (tail : string)
      (fmt : list Strptime.item) :
  Str.is_digit c2 = true ->
  Str.is_digit c3 = true ->
  Strptime.fmt_match
    (Strptime.Dir Strptime.Dd :: Strptime.Lit "/" :: fmt)
    (String c1 (String c2 (String c3 tail)))
  = [].
Proof.
  intros H2 H3. cbn [Strptime.fmt_match]. apply flat_map_nil.
  intros [m r] Hin. apply day_match_rest in Hin. cbn [snd] in Hin.
  destruct Hin as [-> | ->].
  - now rewrite (digit_not_slash c2 H2).
  - now rewrite (digit_not_slash c3 H3).
Qed.

(** The year directive takes the four digits. *)
Lemma year_match (c1 c2 c3 c4 : ascii) (tail : string) :
  Str.is_digit c1 = true -> Str.is_digit c2 = true ->
  Str.is_digit c3 = true -> Str.is_digit c4 = true ->
  Strptime.re_match (Strptime.directive_re Strptime.DY)
                    (String c1 (String c2 (String c3 (String c4 tail))))
  = [(String c1 (String c2 (String c3 (String c4 ""))), tail)].
Proof.
  intros H1 H2 H3 H4.
  cbn [Strptime.directive_re Strptime.re_match Strptime.digit].
  rewrite H1. cbn [flat_map map app Strptime.re_match].
  rewrite H2. cbn [flat_map map app Strptime.re_match].
  rewrite H3. cbn [flat_map map app Strptime.re_match].
  rewrite H4. reflexivity.
Qed.

Lemma year_fmt_match (c1 c2 c3 c4 : ascii) (tail : string)
      (fmt : list Strptime.item) :
  Str.is_digit c1 = true -> Str.is_digit c2 = true ->
  Str.is_digit c3 = true -> Str.is_digit c4 = true ->
  Strptime.fmt_match (Strptime.Dir Strptime.DY :: fmt)
                     (String c1 (String c2 (String c3 (String c4 tail))))
  = map (fun gr => ((Strptime.DY,
                     String c1 (String c2 (String c3 (String c4 ""))))
                      :: fst gr, snd gr))
        (Strptime.fmt_match fmt tail).
Proof.
  intros H1 H2 H3 H4. cbn [Strptime.fmt_match].
  rewrite (year_match c1 c2 c3 c4 tail H1 H2 H3 H4).
  cbn [flat_map]. rewrite app_nil_r. apply map_ext. now intros [g r].
Qed.

(** X21. A date and its ISO text give the same serial: for every date [d]
    that [datetime] can build, [to_gs_serial(str(d))] is
    [to_gs_serial(d)]. The text is refused by the day-first format and read
    by the year-first one. *)
Theorem to_gs_serial_reads_iso_text (d : date) :
  Cal.valid d = true ->
  to_gs_serial (VStr (Cal.date_str d)) = to_gs_serial (VDate d).
Proof.
  intros Hv. destruct d as [y m dd].
  assert (Hb : 1 <= y <= 9999 /\ 1 <= m <= 12 /\ 1 <= dd <= 31).
  { pose proof Hv as H. unfold Cal.valid, Cal.MINYEAR, Cal.MAXYEAR in H.
    cbn [year month day] in H.
    repeat (apply andb_true_iff in H as [H ?]).
    pose proof (days_in_month_bound y m). lia. }
  destruct Hb as (Hy & Hm & Hd).
  destruct (year_text y) as (c1 & c2 & c3 & c4 & HY & H1 & H2 & H3 & H4 & Hval);
    [lia|].
  pose proof (iso_tail_ok_range m dd Hm Hd) as Hok. unfold iso_tail_ok in Hok.
  destruct (Strptime.fmt_match iso_tail_format (iso_tail m dd))
    as [|[g r] l] eqn:Etail; [discriminate Hok|].
  destruct g as [|[[] a] [|[[] b] [|? ?]]]; try discriminate Hok.
  destruct r; [|discriminate Hok].
  apply andb_true_iff in Hok as [Hok Hsp].
  apply andb_true_iff in Hok as [Ha Hbd].
  apply Z.eqb_eq in Ha. apply Z.eqb_eq in Hbd.
  change (Cal.date_str (mkDate y m dd))
    with (Cal.zero_pad 4 y ++ iso_tail m dd).
  rewrite HY in *. cbn [append].
  set (text := String c1 (String c2 (String c3 (String c4 (iso_tail m dd))))).
  assert (Hstrip : Str.strip text = text).
  { apply strip_no_space. unfold text. cbn [Str.forallb].
    now rewrite !digit_not_space, Hsp by assumption. }
  unfold to_gs_serial.
  cbn [is_none_or_empty is_int_or_float]. unfold text at 1. cbn [String.eqb].
  rewrite Hstrip. unfold text at 1. cbn [String.eqb].
  cbn [first_parse Strptime.formats].
  unfold Strptime.strptime_date at 1. unfold text at 1.
  rewrite (day_slash_fails c1 c2 c3 _ _ H2 H3).
  unfold Strptime.strptime_date at 1. unfold text.
  change [Strptime.Dir Strptime.DY; Strptime.Lit "-";
          Strptime.Dir Strptime.Dm; Strptime.Lit "-";
          Strptime.Dir Strptime.Dd]
    with (Strptime.Dir Strptime.DY :: iso_tail_format).
  rewrite (year_fmt_match c1 c2 c3 c4 _ _ H1 H2 H3 H4), Etail.
  cbn [map fst snd Strptime.assign year month day].
  rewrite Hval, Ha, Hbd, Hv. reflexivity.
Qed.

Lemma to_gs_serial_reads_iso_text_witness :
  Cal.valid (mkDate 2024 2 29) = true
  /\ Cal.date_str (mkDate 2024 2 29) = "2024-02-29"
  /\ to_gs_serial (VStr (Cal.date_str (mkDate 2024 2 29)))
     = to_gs_serial (VDate (mkDate 2024 2 29)).
Proof.
  assert (H : Cal.valid (mkDate 2024 2 29) = true) by reflexivity.
  split; [exact H|]. split; [reflexivity|].
  exact (to_gs_serial_reads_iso_text (mkDate 2024 2 29) H).
Defined.

(* ----------------------------------------------------------------- *)
(** ** A date written day first is read back *)

Lemma flat_map_map {X Y W} (f : Y -> list W) (g : X -> Y) (l : list X) :
  flat_map f (map g l) = flat_map (fun x => f (g x)) l.
Proof.
  induction l as [|x l IH]; [reflexivity|]. cbn [map flat_map]. now rewrite IH.
Qed.

Lemma flat_map_flat_map {X Y W} (f : Y -> list W) (g : X -> list Y) (l : list X) :
  flat_map f (flat_map g l) = flat_map (fun x => flat_map f (g x)) l.
Proof.
  induction l as [|x l IH]; [reflexivity|]. cbn [flat_map].
  now rewrite flat_map_app, IH.
Qed.

Lemma map_flat_map {X Y W} (f : Y -> W) (g : X -> list Y) (l : list X) :
  map f (flat_map g l) = flat_map (fun x => map f (g x)) l.
Proof.
  induction l as [|x l IH]; [reflexivity|]. cbn [flat_map].
  now rewrite map_app, IH.
Qed.

(** Matching a format in two parts: the second part goes on where each
    match of the first part stopped. *)
Lemma fmt_match_app (f1 f2 : list Strptime.item) :
  forall s,
    Strptime.fmt_match (f1 ++ f2) s
    = flat_map (fun gr => map (fun gr' => ((fst gr ++ fst gr')%list, snd gr'))
                              (Strptime.fmt_match f2 (snd gr)))
               (Strptime.fmt_match f1 s).
Proof.
  induction f1 as [|[d | c] f1 IH]; intros s.
  - cbn [app Strptime.fmt_match flat_map fst snd]. rewrite app_nil_r.
    rewrite <- (map_id (Strptime.fmt_match f2 s)) at 1.
    apply map_ext. now intros [g r].
  - cbn [app Strptime.fmt_match]. rewrite flat_map_flat_map.
    apply flat_map_ext. intros [m r]. rewrite IH, map_flat_map, flat_map_map.
    apply flat_map_ext. intros [g r']. cbn [fst snd]. rewrite map_map.
    apply map_ext. now intros [g' r''].
  - cbn [app Strptime.fmt_match]. destruct s as [|c' t]; [reflexivity|].
    destruct (Ascii.eqb c c'); [apply IH | reflexivity].
Qed.

(** Two digits are two digit characters that [int] reads back. *)
Lemma two_digit_text (n : Z) :
  0 <= n < 100 ->
  exists a b,
    Cal.zero_pad 2 n = String a (String b "")
    /\ Str.is_digit a = true /\ Str.is_digit b = true
    /\ Strptime.group_int (Cal.zero_pad 2 n) = n.
Proof.
  intros Hn. cbn [Cal.zero_pad append].
  do 2 eexists. split; [reflexivity|].
  repeat (split; [apply digit_char|]).
  unfold Strptime.group_int. rewrite strip_no_space.
  - cbn [Str.digits_val]. rewrite !digit_char_val.
    Z.to_euclidean_division_equations. lia.
  - cbn [Str.forallb]. now rewrite !(digit_not_space _ (digit_char _)).
Qed.

(** The beginning [DD/MM/] is read in one way only, whatever follows. *)
Lemma dmy_head_match_all :
  Forall (fun dd =>
            Forall (fun m =>
                      forall rest,
                        Strptime.fmt_match dmy_head_format (dmy_head dd m ++ rest)
                        = [([(Strptime.Dd, Cal.zero_pad 2 dd);
                             (Strptime.Dm, Cal.zero_pad 2 m)], rest)])
                   (py_range 1 13))
         (py_range 1 32).
Proof.
  let l := eval vm_compute in (py_range 1 13) in
  change (py_range 1 13) with l.
  let l := eval vm_compute in (py_range 1 32) in
  change (py_range 1 32) with l.
  repeat constructor; intros rest; vm_compute; reflexivity.
Qed.

Lemma dmy_head_match (dd m : Z) (rest : string) :
  1 <= dd <= 31 -> 1 <= m <= 12 ->
  Strptime.fmt_match dmy_head_format (dmy_head dd m ++ rest)
  = [([(Strptime.Dd, Cal.zero_pad 2 dd); (Strptime.Dm, Cal.zero_pad 2 m)], rest)].
Proof.
  intros Hd Hm. pose proof dmy_head_match_all as H.
  rewrite Forall_forall in H.
  specialize (H dd (In_py_range 1 32 dd ltac:(lia))).
  rewrite Forall_forall in H.
  exact (H m (In_py_range 1 13 m ltac:(lia)) rest).
Qed.

(** X22. A date written day first, [DD/MM/YYYY], is read as that day of
    that month: for every date [d] that [datetime] can build,
    [to_gs_serial] of the text is [to_gs_serial(d)]. *)
Theorem to_gs_serial_reads_day_first_text (d : date) :
  Cal.valid d = true ->
  to_gs_serial (VStr (dmy_str d)) = to_gs_serial (VDate d).
Proof.
  intros Hv. destruct d as [y m dd].
  assert (Hb : 1 <= y <= 9999 /\ 1 <= m <= 12 /\ 1 <= dd <= 31).
  { pose proof Hv as H. unfold Cal.valid, Cal.MINYEAR, Cal.MAXYEAR in H.
    cbn [year month day] in H.
    repeat (apply andb_true_iff in H as [H ?]).
    pose proof (days_in_month_bound y m). lia. }
  destruct Hb as (Hy & Hm & Hd).
  destruct (year_text y) as (c1 & c2 & c3 & c4 & HY & H1 & H2 & H3 & H4 & Hval);
    [lia|].
  destruct (two_digit_text dd) as (a & b & Hdd & Ha & Hb & Hdval); [lia|].
  destruct (two_digit_text m) as (c & e & Hmm & Hc & He & Hmval); [lia|].
  set (text := dmy_str (mkDate y m dd)).
  assert (Htext : text
                  = String a (String b (String "/" (String c (String e
                      (String "/" (String c1 (String c2 (String c3
                        (String c4 "")))))))))).
  { unfold text, dmy_str, dmy_head. cbn [year month day].
    now rewrite HY, Hdd, Hmm. }
  assert (Hne : String.eqb text "" = false) by now rewrite Htext.
  assert (Hstrip : Str.strip text = text).
  { apply strip_no_space. rewrite Htext. cbn [Str.forallb].
    rewrite (digit_not_space a Ha), (digit_not_space b Hb),
      (digit_not_space c Hc), (digit_not_space e He),
      (digit_not_space c1 H1), (digit_not_space c2 H2),
      (digit_not_space c3 H3), (digit_not_space c4 H4).
    reflexivity. }
  unfold to_gs_serial. cbn [is_none_or_empty is_int_or_float].
  rewrite Hne, Hstrip, Hne. cbn [first_parse Strptime.formats].
  unfold Strptime.strptime_date at 1.
  change [Strptime.Dir Strptime.Dd; Strptime.Lit "/";
          Strptime.Dir Strptime.Dm; Strptime.Lit "/";
          Strptime.Dir Strptime.DY]
    with (dmy_head_format ++ [Strptime.Dir Strptime.DY])%list.
  rewrite fmt_match_app. unfold text, dmy_str. cbn [year month day].
  rewrite (dmy_head_match dd m _ Hd Hm). cbn [flat_map fst snd].
  rewrite HY in *.
  rewrite (year_fmt_match c1 c2 c3 c4 "" [] H1 H2 H3 H4).
  cbn [Strptime.fmt_match map app fst snd Strptime.assign year month day].
  rewrite Hval, Hdval, Hmval, Hv. reflexivity.
Qed.

Lemma to_gs_serial_reads_day_first_text_witness :
  Cal.valid (mkDate 2024 2 1) = true
  /\ dmy_str (mkDate 2024 2 1) = "01/02/2024"
  /\ to_gs_serial (VStr (dmy_str (mkDate 2024 2 1)))
     = to_gs_serial (VDate (mkDate 2024 2 1)).
Proof.
  assert (H : Cal.valid (mkDate 2024 2 1) = true) by reflexivity.
  split; [exact H|]. split; [reflexivity|].
  exact (to_gs_serial_reads_day_first_text (mkDate 2024 2 1) H).
Defined.

(* ----------------------------------------------------------------- *)
(** ** Two-digit years *)

Lemma two_digit_year_ok_all :
  forallb (fun yy =>
             forallb (fun m => forallb (two_digit_year_ok yy m) (py_range 1 32))
                     (py_range 1 13))
          (py_range 0 100)
  = true.
Proof. vm_compute. reflexivity. Qed.

Lemma date_eqb_eq (a b : date) : date_eqb a b = true -> a = b.
Proof.
  destruct a, b. unfold date_eqb. cbn [year month day]. intros H.
  repeat (apply andb_true_iff in H as [H ?]).
  f_equal; now apply Z.eqb_eq.
Qed.

(** X23. A text [DD/MM/YY] with a two-digit year is read with the years
    00..68 in 2000..2068 and 69..99 in 1969..1999: it gives the serial of
    that date when the date exists, and "" when the month has no such
    day. *)
Theorem to_gs_serial_two_digit_year (yy m dd : Z) :
  0 <= yy <= 99 -> 1 <= m <= 12 -> 1 <= dd <= 31 ->
  to_gs_serial (VStr (dmy_head dd m ++ Cal.zero_pad 2 yy))
  = if Cal.valid (mkDate (pivot_year yy) m dd)
    then to_gs_serial (VDate (mkDate (pivot_year yy) m dd))
    else Ret (VStr "").
Proof.
  intros Hy Hm Hd. pose proof two_digit_year_ok_all as H.
  rewrite forallb_forall in H.
  specialize (H yy (In_py_range 0 100 yy ltac:(lia))).
  rewrite forallb_forall in H.
  specialize (H m (In_py_range 1 13 m ltac:(lia))).
  rewrite forallb_forall in H.
  specialize (H dd (In_py_range 1 32 dd ltac:(lia))).
  unfold two_digit_year_ok in H. cbv zeta in H.
  set (text := dmy_head dd m ++ Cal.zero_pad 2 yy) in *.
  apply andb_true_iff in H as [H Hp].
  apply andb_true_iff in H as [Hne Hs].
  apply negb_true_iff in Hne. apply String.eqb_eq in Hs.
  unfold to_gs_serial. cbn [is_none_or_empty is_int_or_float].
  rewrite Hne, Hs, Hne.
  destruct (first_parse text Strptime.formats) as [d'|].
  - apply andb_true_iff in Hp as [Hv He]. apply date_eqb_eq in He.
    now rewrite Hv, He.
  - apply negb_true_iff in Hp. now rewrite Hp.
Qed.

Lemma to_gs_serial_two_digit_year_witness :
  0 <= 69 <= 99 /\ 1 <= 2 <= 12 /\ 1 <= 28 <= 31
  /\ dmy_head 28 2 ++ Cal.zero_pad 2 69 = "28/02/69"
  /\ pivot_year 69 = 1969
  /\ to_gs_serial (VStr (dmy_head 28 2 ++ Cal.zero_pad 2 69))
     = if Cal.valid (mkDate (pivot_year 69) 2 28)
       then to_gs_serial (VDate (mkDate (pivot_year 69) 2 28))
       else Ret (VStr "").
Proof.
  assert (H1 : 0 <= 69 <= 99) by lia.
  assert (H2 : 1 <= 2 <= 12) by lia.
  assert (H3 : 1 <= 28 <= 31) by lia.
  split; [exact H1|]. split; [exact H2|]. split; [exact H3|].
  split; [reflexivity|]. split; [reflexivity|].
  exact (to_gs_serial_two_digit_year 69 2 28 H1 H2 H3).
Defined.

(* ----------------------------------------------------------------- *)
(** ** The restart loop recovers *)

(** X24. [main] stops at the first run that ends normally: when the first
    [k] runs, [k] being 0, 1 or 2, fail with retryable API errors or with
    exceptions that are not API errors, and the next run ends normally,
    [main] returns after [k + 1] runs and [k] sleeps. *)
Theorem main_recovers (run_once : nat -> result unit) (rand : nat -> Q)
        (k : nat) :
  (k < 3)%nat ->
  (forall j, (j < k)%nat ->
             exists e, run_once j = Raise e
                       /\ (is_api_error e = true ->
                           is_retryable_api_error e = true)) ->
  (exists u, run_once k = Ret u) ->
  fst (main run_once rand) = Ret tt
  /\ calls (snd (main run_once rand)) = S k
  /\ List.length (slept (snd (main run_once rand))) = k.
Proof.
  intros Hk Hfail [u Hu].
  destruct (main_outcomes run_once rand)
    as [[Hs Hm] | [[e1 [H0 [Hr1 [Hs Hm]]]] | [e1 [e2 [H0 [Hr1 [H1 [Hr2 Hm]]]]]]]];
    rewrite Hm; cbn [fst snd calls slept List.length].
  - destruct k as [|k].
    + rewrite Hu. now repeat split.
    + destruct (Hfail 0%nat) as [e [He Hr]]; [lia|]. rewrite He in Hs.
      cbn [final_run] in Hs. destruct Hs as [Ha Hn].
      rewrite (Hr Ha) in Hn. discriminate Hn.
  - destruct k as [|[|k]].
    + rewrite Hu in H0. discriminate H0.
    + rewrite Hu. now repeat split.
    + destruct (Hfail 1%nat) as [e [He Hr]]; [lia|]. rewrite He in Hs.
      cbn [final_run] in Hs. destruct Hs as [Ha Hn].
      rewrite (Hr Ha) in Hn. discriminate Hn.
  - destruct k as [|[|[|k]]]; try lia.
    + rewrite Hu in H0. discriminate H0.
    + rewrite Hu in H1. discriminate H1.
    + rewrite Hu. now repeat split.
Qed.

Lemma main_recovers_witness :
  let run_once := fun j : nat =>
                    if (j <? 2)%nat then Raise (OtherError "timed out")
                    else Ret tt in
  let rand := fun _ : nat => 0%Q in
  (2 < 3)%nat
  /\ fst (main run_once rand) = Ret tt
  /\ calls (snd (main run_once rand)) = 3%nat
  /\ List.length (slept (snd (main run_once rand))) = 2%nat.
Proof.
  intros run_once rand.
  assert (H : (2 < 3)%nat) by lia.
  split; [exact H|].
  apply (main_recovers run_once rand 2 H).
  - intros j Hj. exists (OtherError "timed out").
    destruct j as [|[|j]]; [split; [reflexivity | discriminate]
                           | split; [reflexivity | discriminate] | lia].
  - now exists tt.
Defined.

(* ----------------------------------------------------------------- *)
(** ** The data path of one run *)

Lemma nth_error_seq_value (n : nat) :
  forall a k r, nth_error (seq a n) k = Some r -> r = (a + k)%nat.
Proof.
  induction n as [|n IH]; intros a k r H.
  - destruct k; discriminate H.
  - destruct k as [|k]; cbn [seq nth_error] in H.
    + injection H as <-. lia.
    + apply IH in H. lia.
Qed.

Lemma treat_rows_nth (data_cols : dict (list value)) (rs : list nat) :
  forall m k row,
    treat_rows data_cols rs = Ret m ->
    nth_error m k = Some row ->
    exists r, nth_error rs k = Some r
              /\ treat_row MAPPINGS data_cols r = Ret row.
Proof.
  induction rs as [|r rs IH]; intros m k row H Hk; cbn [treat_rows] in H.
  - injection H as <-. destruct k; discriminate Hk.
  - destruct (treat_row MAPPINGS data_cols r) as [row0|] eqn:Er; [|discriminate H].
    destruct (treat_rows data_cols rs) as [m'|]; [|discriminate H].
    injection H as <-. destruct k as [|k]; cbn [nth_error] in *.
    + injection Hk as <-. now exists r.
    + exact (IH m' k row eq_refl Hk).
Qed.

(** X25. When the coercion and the writes succeed, one run writes, from
    row 3 on and in order, exactly the coerced rows 0 .. N - 1 of the
    source columns, N being the inferred row count: the rows covered are
    3 .. N + 2 and the [k]-th row written is [treat_row] of source row
    [k]. *)
Theorem run_data_writes_treated_rows
        (set_matrix : nat -> result unit) (fuel : nat)
        (batch : list (list (list value))) (m : list (list value)) :
  let N := infer_row_count (normalize batch) in
  (forall k, set_matrix k = Ret tt) ->
  treated_matrix (normalize batch) N = Ret m ->
  ceil_div N BATCH_ROWS < Z.of_nat fuel ->
  exists ws,
    run_data set_matrix fuel batch = Some (Ret tt, ws)
    /\ List.concat (map w_values ws) = m
    /\ flat_map rows_of ws
       = py_range DEST_DATA_START_ROW (DEST_DATA_START_ROW + N)
    /\ Z.of_nat (List.length m) = N
    /\ (forall k row,
           nth_error m k = Some row ->
           treat_row MAPPINGS (normalize batch) k = Ret row).
Proof.
  intros N Hok Hm Hfuel.
  pose proof (infer_row_count_nonneg (normalize batch)) as Hpos. fold N in Hpos.
  assert (HN : N = Z.of_nat (List.length m))
    by exact (treated_matrix_length _ _ m Hpos Hm).
  assert (Hcalc : calc_num_rows_from_columns (normalize batch) = Some N).
  { unfold calc_num_rows_from_columns. rewrite calc_loop_spec by lia.
    f_equal. fold N. lia. }
  assert (Hloop : exists ws,
             write_data set_matrix fuel m N = Some (Ret tt, ws)
             /\ write_inv m N (DEST_DATA_START_ROW + N) ws).
  { rewrite HN in *. unfold write_data. destruct m as [|row rest] eqn:Em.
    - exists []. split; [reflexivity | apply write_inv_init].
    - rewrite <- Em in *.
      apply (write_loop_ends set_matrix Hok m); [apply write_inv_init|].
      unfold ceil_div, BATCH_ROWS in *.
      Z.to_euclidean_division_equations. lia. }
  destruct Hloop as [ws [Hrun Hinv]]. exists ws.
  split; [unfold run_data; cbv zeta; now rewrite Hcalc, Hm|].
  split.
  { pose proof (inv_values _ _ _ _ Hinv) as Hv.
    rewrite HN, Nat2Z.id, skipn_all, app_nil_r in Hv. exact Hv. }
  split; [exact (inv_rows _ _ _ _ Hinv)|].
  split; [now rewrite <- HN|].
  intros k row Hk. unfold treated_matrix in Hm.
  destruct (treat_rows_nth _ _ m k row Hm Hk) as [r [Hr Hrow]].
  apply nth_error_seq_value in Hr. now subst r.
Qed.

Lemma run_data_writes_treated_rows_witness :
  let set_matrix := fun _ : nat => Ret tt in
  let batch := [[[VStr "a"]; [VStr "b"]]; [[VStr "c"]]] in
  let m := [[VStr "a"; VStr "c"; VStr ""; VStr ""; VStr ""; VStr ""; VStr "";
             VStr ""; VStr ""; VStr ""; VStr ""; VStr ""; VStr ""; VStr "";
             VStr ""; VStr ""; VStr ""; VStr ""; VStr ""; VStr ""; VStr "";
             VStr ""; VStr ""];
            [VStr "b"; VStr ""; VStr ""; VStr ""; VStr ""; VStr ""; VStr "";
             VStr ""; VStr ""; VStr ""; VStr ""; VStr ""; VStr ""; VStr "";
             VStr ""; VStr ""; VStr ""; VStr ""; VStr ""; VStr ""; VStr "";
             VStr ""; VStr ""]] in
  let N := infer_row_count (normalize batch) in
  (forall k, set_matrix k = Ret tt)
  /\ treated_matrix (normalize batch) N = Ret m
  /\ ceil_div N BATCH_ROWS < Z.of_nat 2
  /\ exists ws,
      run_data set_matrix 2 batch = Some (Ret tt, ws)
      /\ List.concat (map w_values ws) = m
      /\ flat_map rows_of ws
         = py_range DEST_DATA_START_ROW (DEST_DATA_START_ROW + N)
      /\ Z.of_nat (List.length m) = N
      /\ (forall k row,
             nth_error m k = Some row ->
             treat_row MAPPINGS (normalize batch) k = Ret row).
Proof.
  intros set_matrix batch m N.
  assert (H1 : forall k, set_matrix k = Ret tt) by reflexivity.
  assert (H2 : treated_matrix (normalize batch) N = Ret m)
    by (vm_compute; reflexivity).
  assert (H3 : ceil_div N BATCH_ROWS < Z.of_nat 2) by (vm_compute; reflexivity).
  split; [exact H1|]. split; [exact H2|]. split; [exact H3|].
  exact (run_data_writes_treated_rows set_matrix 2 batch m H1 H2 H3).
Defined.

Lemma treat_cell_api (t : tipo) (v : value) :
  api_cell v -> exists r, treat_cell t v = Ret r.
Proof.
  intros Hv. destruct t; cbn [treat_cell].
  - now exists v.
  - destruct (is_int_or_float v); [now exists v|].
    destruct (to_gs_serial_total v) as [r [Hr _]]; [|now exists r].
    destruct v; try exact I; destruct Hv.
  - destruct (clean_currency_total_but_overflow v) as [r [Hr _]]; [|now exists r].
    intros n ->. cbn [api_cell] in Hv.
    destruct (of_int_small n Hv) as [f ->]. discriminate.
Qed.

Lemma flatten_rows_api (raw : list (list value)) :
  Forall (Forall api_cell) raw -> Forall api_cell (flatten_rows raw).
Proof.
  intros H. unfold flatten_rows. apply Forall_map.
  eapply Forall_impl; [|exact H]. intros row Hrow.
  destruct Hrow; [exact I | assumption].
Qed.

Lemma nth_api (r : nat) (col : list value) :
  Forall api_cell col -> api_cell (nth r col (VStr "")).
Proof.
  intros H. destruct (Nat.lt_ge_cases r (List.length col)) as [Hlt | Hge].
  - rewrite Forall_forall in H. apply H. now apply nth_In.
  - now rewrite nth_overflow.
Qed.

Lemma treat_row_api (maps : list (string * string * tipo))
      (data_cols : dict (list value)) (r : nat) :
  (forall m, In m maps ->
             exists col, dict_get (fst (fst m)) data_cols = Some col
                         /\ Forall api_cell col) ->
  exists row, treat_row maps data_cols r = Ret row.
Proof.
  induction maps as [|[[src dst] t] rest IH]; intros Hkeys; [now exists []|].
  cbn [treat_row].
  destruct (Hkeys (src, dst, t)) as [col [Hcol Hapi]]; [now left|].
  cbn [fst] in Hcol. rewrite Hcol.
  destruct (treat_cell_api t _ (nth_api r col Hapi)) as [v ->].
  destruct IH as [row ->]; [intros m Hm; apply Hkeys; now right|].
  now eexists.
Qed.

(** X26. Cells as the remote API returns them (empty, text, boolean,
    float, or an integer below 2^53 in magnitude) never abort the coercion:
    whatever the batched read returned with such cells, and for any number
    of rows, [treated_matrix] returns a matrix. *)
Theorem api_cells_never_abort_coercion
        (batch : list (list (list value))) (num_rows_data : Z) :
  Forall (Forall (Forall api_cell)) batch ->
  exists m, treated_matrix (normalize batch) num_rows_data = Ret m.
Proof.
  intros Hbatch.
  assert (Hkeys : forall m, In m MAPPINGS ->
                            exists col, dict_get (fst (fst m)) (normalize batch)
                                        = Some col /\ Forall api_cell col).
  { intros [[src dst] t] Hin. apply In_nth_error in Hin as [i Hi].
    eexists. split; [exact (normalize_get batch i src dst t Hi)|].
    apply flatten_rows_api.
    destruct (Nat.lt_ge_cases i (List.length batch)) as [Hlt | Hge].
    - rewrite Forall_forall in Hbatch. apply Hbatch. now apply nth_In.
    - rewrite nth_overflow by exact Hge. constructor. }
  unfold treated_matrix. generalize (seq 0 (Z.to_nat num_rows_data)).
  intros rs. induction rs as [|r rs [m IH]]; [now exists []|].
  cbn [treat_rows].
  destruct (treat_row_api MAPPINGS (normalize batch) r Hkeys) as [row ->].
  rewrite IH. now eexists.
Qed.

Lemma api_cells_never_abort_coercion_witness :
  let batch := [[[VStr "R$ 1.234,56"]; []; [VInt 1500]];
                [[VFloat f_45306]; [VBool true]; [VNone]]] in
  Forall (Forall (Forall api_cell)) batch
  /\ exists m, treated_matrix (normalize batch) 3 = Ret m.
Proof.
  intros batch.
  assert (H : Forall (Forall (Forall api_cell)) batch).
  { repeat constructor. }
  split; [exact H | exact (api_cells_never_abort_coercion batch 3 H)].
Defined.
